(** * neuralnet: a shallow embedding of [nn.py] and its specification

    The program is a small fully connected network trainer written with
    numpy.  Its numbers are float64; here every float64 is idealised as a real
    number of [R]: rounding, overflow, infinities and NaN are outside the
    model, and [np.log], [np.exp] are the functions [ln] and [exp] of the
    Standard Library.  The one exception is the cost where a logarithm is
    taken at or below 0: there the code's result is an infinity or [nan]
    without any rounding, and [_cost_ext] keeps it.  Everything else follows
    the source: arrays carry a shape and row-major data, numpy's shape checks
    and Python's exceptions are results of an error type, in-place updates
    are explicit state. *)

From Stdlib Require Import String.
From Stdlib Require Import List Arith Lia Bool.
From Stdlib Require Import Reals Lra.
Import ListNotations.

Set Implicit Arguments.

(** ** Python exceptions and the state-and-error monad *)

Inductive pyerr : Type :=
| AssertionError
| IndexError
| KeyError
| TypeError
| ValueError
| ZeroDivisionError.

Inductive res (A : Type) : Type :=
| Ok (a : A)
| Err (e : pyerr).
Arguments Ok {A} a.
Arguments Err {A} e.

(** A method that may mutate an object of type [S] and may raise: the state
    that comes back is the object as the call left it, also when it raised. *)
Definition prog (S A : Type) : Type := S -> res A * S.

Definition ret {S A} (a : A) : prog S A := fun s => (Ok a, s).
Definition raise {S A} (e : pyerr) : prog S A := fun s => (Err e, s).
Definition bind {S A B} (m : prog S A) (k : A -> prog S B) : prog S B :=
  fun s => match m s with
           | (Ok a, s') => k a s'
           | (Err e, s') => (Err e, s')
           end.
Definition get_state {S} : prog S S := fun s => (Ok s, s).
Definition put_state {S} (s : S) : prog S unit := fun _ => (Ok tt, s).
Definition lift {S A} (r : res A) : prog S A := fun s => (r, s).
Definition py_assert {S} (b : bool) : prog S unit :=
  if b then ret tt else raise AssertionError.

Declare Scope prog_scope.
Delimit Scope prog_scope with prog.
Notation "x <- m ;; k" := (bind m (fun x => k))
  (at level 100, m at next level, right associativity) : prog_scope.
Notation "' p <- m ;; k" := (bind m (fun p => k))
  (at level 100, p pattern, m at next level, right associativity) : prog_scope.
Notation "m ;;; k" := (bind m (fun _ => k))
  (at level 100, right associativity) : prog_scope.

(** The pure fragment: expressions that raise but touch no object. *)
Definition rbind {A B} (r : res A) (k : A -> res B) : res B :=
  match r with
  | Ok a => k a
  | Err e => Err e
  end.

Declare Scope res_scope.
Delimit Scope res_scope with res.
Notation "x <- m ;; k" := (rbind m (fun x => k))
  (at level 100, m at next level, right associativity) : res_scope.
Notation "' p <- m ;; k" := (rbind m (fun p => k))
  (at level 100, p pattern, m at next level, right associativity) : res_scope.

(** [for x in xs: body], with the loop's local variables as an accumulator. *)
Fixpoint for_each {S T Acc} (xs : list T) (body : T -> Acc -> prog S Acc)
  (acc : Acc) : prog S Acc :=
  match xs with
  | [] => ret acc
  | x :: xs' => bind (body x acc) (for_each xs' body)
  end.

(** [range(a, b)] and [reversed(range(a, b))]. *)
Definition range (a b : nat) : list nat := seq a (b - a).
Definition reversed (xs : list nat) : list nat := rev xs.

(** [xs[i]] for [i >= 0]. *)
Definition getitem {A} (xs : list A) (i : nat) : res A :=
  match nth_error xs i with
  | Some x => Ok x
  | None => Err IndexError
  end.

(** [xs[i - 1]] for [i >= 0]: at [i = 0] the index is [-1], the last item. *)
Definition getitem_pred {A} (xs : list A) (i : nat) : res A :=
  match i with
  | O => getitem xs (length xs - 1)
  | S j => getitem xs j
  end.

(** [xs[-1]]. *)
Definition getitem_last {A} (xs : list A) : res A :=
  getitem xs (length xs - 1).

(** ** numpy arrays

    A 1-D array is the list of its items.  A 2-D array is its shape and its
    items in row-major order; [wf] says that the two agree, as they do for
    every array numpy builds. *)

Open Scope R_scope.

Definition vec := list R.

Record ndarray : Type := mk_nd { nrows : nat; ncols : nat; data : list R }.

Definition wf (M : ndarray) : Prop := length (data M) = (nrows M * ncols M)%nat.

Definition shape_eqb (M : ndarray) (r c : nat) : bool :=
  (nrows M =? r)%nat && (ncols M =? c)%nat.

Definition same_shape (M N : ndarray) : bool :=
  shape_eqb M (nrows N) (ncols N).

Definition get (M : ndarray) (i j : nat) : R :=
  nth (i * ncols M + j)%nat (data M) 0.

(** The array of shape [(r, c)] whose item [(i, j)] is [f i j]. *)
Definition tabulate (r c : nat) (f : nat -> nat -> R) : ndarray :=
  mk_nd r c (flat_map (fun i => map (f i) (seq 0 c)) (seq 0 r)).

Definition sum_list (l : list R) : R := fold_right Rplus 0 l.

(** [Σ_{k < n} f k]. *)
Definition big_sum (n : nat) (f : nat -> R) : R := sum_list (map f (seq 0 n)).

(** Elementwise application of a scalar function ([np.log(M)], [1 - M], [-M],
    [c * M], [np.maximum(M, c)]: a 0-d operand broadcasts to every item). *)
Definition mmap (f : R -> R) (M : ndarray) : ndarray :=
  mk_nd (nrows M) (ncols M) (map f (data M)).

(** numpy broadcasting of two 2-D shapes, one axis at a time: equal lengths,
    or one of them is 1. *)
Definition compatible (a b : nat) : bool :=
  (a =? b)%nat || (a =? 1)%nat || (b =? 1)%nat.
Definition bdim (a b : nat) : nat := if (a =? 1)%nat then b else a.
Definition bget (M : ndarray) (i j : nat) : R :=
  get M (if (nrows M =? 1)%nat then O else i) (if (ncols M =? 1)%nat then O else j).

Definition bcast (f : R -> R -> R) (M N : ndarray) : ndarray :=
  tabulate (bdim (nrows M) (nrows N)) (bdim (ncols M) (ncols N))
           (fun i j => f (bget M i j) (bget N i j)).

Definition np_bcast (f : R -> R -> R) (M N : ndarray) : res ndarray :=
  if compatible (nrows M) (nrows N) && compatible (ncols M) (ncols N)
  then Ok (bcast f M N)
  else Err ValueError.

Definition np_add := np_bcast Rplus.
Definition np_multiply := np_bcast Rmult.
Definition np_divide := np_bcast Rdiv.

(** [M += N]: the broadcast result must have the shape of [M]. *)
Definition np_iadd (M N : ndarray) : res ndarray :=
  (T <- np_add M N ;;
   if same_shape T M then Ok T else Err ValueError)%res.

(** [np.dot(M, N)] on 2-D operands. *)
Definition mdot (M N : ndarray) : ndarray :=
  tabulate (nrows M) (ncols N)
           (fun i j => big_sum (ncols M) (fun k => get M i k * get N k j)).

Definition np_dot (M N : ndarray) : res ndarray :=
  if (ncols M =? nrows N)%nat then Ok (mdot M N) else Err ValueError.

(** [M.T]. *)
Definition transpose (M : ndarray) : ndarray :=
  tabulate (ncols M) (nrows M) (fun i j => get M j i).

(** [np.sum(M)] and [np.sum(M, axis=1, keepdims=True)]. *)
Definition np_sum (M : ndarray) : R := sum_list (data M).
Definition np_sum_rows (M : ndarray) : ndarray :=
  tabulate (nrows M) 1 (fun i _ => big_sum (ncols M) (fun j => get M i j)).

(** [1. / m] for a Python int [m]. *)
Definition py_fdiv (x : R) (m : nat) : res R :=
  if (m =? 0)%nat then Err ZeroDivisionError else Ok (x / INR m).

(** ** Activation registry (lines 9-32, 61-64) *)

Definition indicator_pos (z : R) : R := if Rlt_dec 0 z then 1 else 0.
Definition indicator_nonneg (z : R) : R := if Rle_dec 0 z then 1 else 0.

Definition relu (z : ndarray) : ndarray := mmap (Rmax 0) z.

Definition relu_backward (dA Z : ndarray) : res ndarray :=
  np_multiply dA (mmap indicator_pos Z).

Definition relu_derv (z : ndarray) : ndarray := mmap indicator_nonneg z.

Definition sigmoid1 (z : R) : R := 1 / (1 + exp (- z)).
Definition sigmoid (z : ndarray) : ndarray := mmap sigmoid1 z.

Definition sigmoid_backward (dA z : ndarray) : res ndarray :=
  let a := sigmoid z in
  (t <- np_multiply dA a ;;
   np_multiply t (mmap (fun x => 1 - x) a))%res.

Definition sigmoid_derv (z : ndarray) : res ndarray :=
  let a := sigmoid z in
  np_multiply a (mmap (fun x => 1 - x) a).

(** The tuple [(value, derivative, backward)] that the registry holds under a
    key is represented by the key's tag; [t[0]], [t[1]] and [t[2]] are the
    three projections below. *)
Inductive act_tuple : Type := ActRelu | ActSigmoid.

Definition act_value (t : act_tuple) : ndarray -> ndarray :=
  match t with ActRelu => relu | ActSigmoid => sigmoid end.
Definition act_derv (t : act_tuple) : ndarray -> res ndarray :=
  match t with ActRelu => fun z => Ok (relu_derv z) | ActSigmoid => sigmoid_derv end.
Definition act_backward (t : act_tuple) : ndarray -> ndarray -> res ndarray :=
  match t with ActRelu => relu_backward | ActSigmoid => sigmoid_backward end.

(** [self.activations[key]]. *)
Definition activations (key : string) : res act_tuple :=
  if String.eqb key "relu" then Ok ActRelu
  else if String.eqb key "sigmoid" then Ok ActSigmoid
  else Err KeyError.

(** ** Layer model (lines 53-86) *)

Record NnLayer : Type := mk_layer { dim : nat; activation : option act_tuple }.

(** An entry of [layer_offsets]: the placeholder [(0, 0)] of layer 0, or the
    pair of half-open ranges [((w0, w1), (b0, b1))] of a layer. *)
Inductive offset_entry : Type :=
| OffInit
| OffLayer (w_offset b_offset : nat * nat).

Record NnModel : Type :=
  mk_model { layers : list NnLayer; layer_offsets : list offset_entry }.

Definition new_model : NnModel := mk_model [] [].

Definition is_empty {A} (l : list A) : bool :=
  match l with [] => true | _ => false end.

Definition append_layer (ly : NnLayer) : prog NnModel unit :=
  fun self => (Ok tt, mk_model (layers self ++ [ly]) (layer_offsets self)).

Definition append_offset (e : offset_entry) : prog NnModel unit :=
  fun self => (Ok tt, mk_model (layers self) (layer_offsets self ++ [e])).

Definition add (units : nat) (activation : string) (input_dim : nat)
  : prog NnModel unit :=
  (self <- get_state ;;
   (if negb (input_dim =? 0)%nat && is_empty (layers self)
    then append_layer (mk_layer input_dim None)
    else ret tt) ;;;
   fns <- lift (activations activation) ;;
   append_layer (mk_layer units (Some fns)))%prog.

Definition compile_body (layer : nat) (offset : nat) : prog NnModel nat :=
  (self <- get_state ;;
   prev <- lift (getitem_pred (layers self) layer) ;;
   cur <- lift (getitem (layers self) layer) ;;
   let prev_layer_dim := dim prev in
   let layer_dim := dim cur in
   let w_offset := (offset, offset + prev_layer_dim * layer_dim)%nat in
   let b_offset := (snd w_offset, snd w_offset + layer_dim)%nat in
   append_offset (OffLayer w_offset b_offset) ;;;
   ret (offset + prev_layer_dim * layer_dim + layer_dim)%nat)%prog.

Definition compile : prog NnModel unit :=
  (self <- get_state ;;
   put_state (mk_model (layers self) [OffInit]) ;;;
   _ <- for_each (range 1 (length (layers self))) compile_body O ;;
   ret tt)%prog.

(** The parameter count, as [_init_params] accumulates it (lines 137-140). *)
Definition param_len_body (ls : list NnLayer) (l : nat) (d : nat) : prog unit nat :=
  (cur <- lift (getitem ls l) ;;
   prev <- lift (getitem_pred ls l) ;;
   let d := (d + dim cur * dim prev)%nat in
   cur' <- lift (getitem ls l) ;;
   ret (d + dim cur')%nat)%prog.

Definition param_len (ls : list NnLayer) : res nat :=
  fst (for_each (range 1 (length ls)) (param_len_body ls) O tt).

(** ** Parameter codec (lines 88-104) *)

(** [p[a:b]] on a 1-D array, for [a, b >= 0]. *)
Definition slice (a b : nat) (p : vec) : vec := firstn (b - a) (skipn a p).

(** [p[a:b, ...] = v] on the [(n, 1)] view of a buffer, with [v] of shape
    [(length v, 1)]: the lengths agree, or [v] has one item that fills the
    slice; anything else cannot broadcast. *)
Definition slice_assign (a b : nat) (v : list R) : prog vec unit :=
  fun p =>
    let k := length (slice a b p) in
    if (length v =? k)%nat
    then (Ok tt, firstn a p ++ v ++ skipn (a + k) p)
    else if (length v =? 1)%nat
         then (Ok tt, firstn a p ++ repeat (hd 0 v) k ++ skipn (a + k) p)
         else (Err ValueError, p).

(** [l.reshape((r, c))]. *)
Definition reshape (l : list R) (r c : nat) : res ndarray :=
  if (length l =? r * c)%nat then Ok (mk_nd r c l) else Err ValueError.

(** [w_offset, b_offset = entry] followed by the first subscript of
    [w_offset]: an int is not subscriptable. *)
Definition ranges_of (e : offset_entry) : res ((nat * nat) * (nat * nat)) :=
  match e with
  | OffInit => Err TypeError
  | OffLayer w b => Ok (w, b)
  end.

Definition pack_params (self : NnModel) (layer : nat) (W b : ndarray)
  : prog vec unit :=
  (cur <- lift (getitem (layers self) layer) ;;
   prev <- lift (getitem_pred (layers self) layer) ;;
   py_assert (shape_eqb W (dim cur) (dim prev)) ;;;
   cur' <- lift (getitem (layers self) layer) ;;
   py_assert (shape_eqb b (dim cur') 1) ;;;
   entry <- lift (getitem (layer_offsets self) layer) ;;
   ' (w_offset, b_offset) <- lift (ranges_of entry) ;;
   slice_assign (fst w_offset) (snd w_offset) (data W) ;;;
   slice_assign (fst b_offset) (snd b_offset) (data b))%prog.

Definition unpack_params (self : NnModel) (layer : nat)
  : prog vec (ndarray * ndarray) :=
  (prev <- lift (getitem_pred (layers self) layer) ;;
   cur <- lift (getitem (layers self) layer) ;;
   let prev_layer_dim := dim prev in
   let layer_dim := dim cur in
   entry <- lift (getitem (layer_offsets self) layer) ;;
   ' (w_offset, b_offset) <- lift (ranges_of entry) ;;
   params <- get_state ;;
   W <- lift (reshape (slice (fst w_offset) (snd w_offset) params)
                      layer_dim prev_layer_dim) ;;
   b <- lift (reshape (slice (fst b_offset) (snd b_offset) params) layer_dim 1) ;;
   ret (W, b))%prog.

(** ** Gradient descent optimizer (lines 35-50) *)

Record GradDescentOptimizer : Type :=
  mk_optimizer { alpha : R; debug : bool; iters : nat }.

(** Elementwise operation on two 1-D arrays, with numpy broadcasting. *)
Fixpoint zip_with (f : R -> R -> R) (u v : vec) : vec :=
  match u, v with
  | x :: u', y :: v' => f x y :: zip_with f u' v'
  | _, _ => []
  end.

Definition np_bcast1 (f : R -> R -> R) (u v : vec) : res vec :=
  if (length u =? length v)%nat then Ok (zip_with f u v)
  else if (length v =? 1)%nat then Ok (map (fun x => f x (hd 0 v)) u)
  else if (length u =? 1)%nat then Ok (map (f (hd 0 u)) v)
  else Err ValueError.

(** What [print] has written: one [(i, cost)] line per call. *)
Definition stdout : Type := list (nat * R).
Definition print (i : nat) (cost : R) : prog stdout unit :=
  fun out => (Ok tt, out ++ [(i, cost)]).

Definition optimize_body (self : GradDescentOptimizer)
  (cost_fn : vec -> res (R * vec)) (i : nat) (st : vec * list R)
  : prog stdout (vec * list R) :=
  let '(params, costs) := st in
  (' (cost, grad) <- lift (cost_fn params) ;;
   params <- lift (np_bcast1 Rminus params (map (Rmult (alpha self)) grad)) ;;
   if (i mod 100 =? 0)%nat
   then (let costs := costs ++ [cost] in
         (if debug self then print i cost else ret tt) ;;;
         ret (params, costs))
   else ret (params, costs))%prog.

Definition optimize (self : GradDescentOptimizer)
  (cost_fn : vec -> res (R * vec)) (params : vec)
  : prog stdout (vec * list R) :=
  for_each (range 0 (iters self)) (optimize_body self cost_fn) (params, []).

(** ** Classifier engines (lines 151-208) *)

Definition eps : R := 1e-8.

(** [t[k]] on the activation field of a layer: [None] is not subscriptable. *)
Definition subscript (a : option act_tuple) : res act_tuple :=
  match a with
  | Some t => Ok t
  | None => Err TypeError
  end.

(** An entry of the cache [Z] used as an array: [Z[0]] is [None]. *)
Definition as_array (z : option ndarray) : res ndarray :=
  match z with
  | Some M => Ok M
  | None => Err TypeError
  end.

(** Run a method on a local buffer; when it raises, the buffer dies with the
    frame that owns it. *)
Definition on_buffer {A} (m : prog vec A) (buf : vec) : res vec :=
  match m buf with
  | (Ok _, buf') => Ok buf'
  | (Err e, _) => Err e
  end.

Section Classifier.

(** [self.model] and [self.lambd] of an [NnClassifier]. *)
Variable model : NnModel.
Variable lambd : R.

Definition forward_body (X : ndarray) (l : nat)
  (AZ : list ndarray * list (option ndarray))
  : prog vec (list ndarray * list (option ndarray)) :=
  let '(A, Z) := AZ in
  (layer <- lift (getitem (layers model) l) ;;
   ' (W, b) <- unpack_params model l ;;
   A_prev <- lift (getitem_pred A l) ;;
   WA <- lift (np_dot W A_prev) ;;
   z <- lift (np_add WA b) ;;
   let Z := Z ++ [Some z] in
   fns <- lift (subscript (activation layer)) ;;
   Zl <- lift (getitem Z l) ;;
   Zl <- lift (as_array Zl) ;;
   let A := A ++ [act_value fns Zl] in
   Al <- lift (getitem A l) ;;
   py_assert (shape_eqb Al (dim layer) (ncols X)) ;;;
   ret (A, Z))%prog.

Definition _propagate_forward (X : ndarray)
  : prog vec (list ndarray * list (option ndarray)) :=
  for_each (range 1 (length (layers model))) (forward_body X) ([X], [None]).

Definition cost_body (m : nat) (l : nat) (J : R) : prog vec R :=
  (' (W, b) <- unpack_params model l ;;
   c <- lift (py_fdiv lambd (2 * m)) ;;
   ret (J + c * np_sum (mmap Rsqr W)))%prog.

(** [np.log] is [ln] here: the value is the code's wherever both logarithms
    are taken above 0 (see [compute_cost_ext_finite]).  At and below 0, where
    [np.log] returns [-inf] or [nan], [_compute_cost_ext] is the embedding to
    use. *)
Definition _compute_cost (AL Y : ndarray) : prog vec R :=
  let m := ncols AL in
  (t1 <- lift (np_multiply Y (mmap ln AL)) ;;
   t2 <- lift (np_multiply (mmap (fun y => 1 - y) Y)
                           (mmap ln (mmap (fun a => 1 - a) AL))) ;;
   s <- lift (np_add t1 t2) ;;
   let L := mmap Ropp s in
   c <- lift (py_fdiv 1 m) ;;
   let J := c * np_sum L in
   for_each (range 1 (length (layers model))) (cost_body m) J)%prog.

Definition _linear_backward (dZ A_prev W b : ndarray)
  : res (ndarray * ndarray * ndarray) :=
  let m := ncols A_prev in
  (c <- py_fdiv 1 m ;;
   d <- np_dot dZ (transpose A_prev) ;;
   let dW := mmap (Rmult c) d in
   c2 <- py_fdiv lambd m ;;
   dW <- np_iadd dW (mmap (Rmult c2) W) ;;
   c3 <- py_fdiv 1 m ;;
   let db := mmap (Rmult c3) (np_sum_rows dZ) in
   dA_prev <- np_dot (transpose W) dZ ;;
   Ok (dW, db, dA_prev))%res.

Definition backward_body (A : list ndarray) (Z : list (option ndarray))
  (l : nat) (st : ndarray * vec) : prog vec (ndarray * vec) :=
  let '(dA, grad) := st in
  (layer <- lift (getitem (layers model) l) ;;
   ' (W, b) <- unpack_params model l ;;
   fns <- lift (subscript (activation layer)) ;;
   Zl <- lift (getitem Z l) ;;
   Zl <- lift (as_array Zl) ;;
   dZ <- lift (act_backward fns dA Zl) ;;
   Al <- lift (getitem A l) ;;
   py_assert (same_shape dZ Al) ;;;
   A_prev <- lift (getitem_pred A l) ;;
   ' (dW, db, dA_prev) <- lift (_linear_backward dZ A_prev W b) ;;
   grad <- lift (on_buffer (pack_params model l dW db) grad) ;;
   ret (dA_prev, grad))%prog.

Definition _propagate_backward (A : list ndarray) (Z : list (option ndarray))
  (Y : ndarray) : prog vec vec :=
  (AL <- lift (getitem_last A) ;;
   let m := ncols AL in
   params <- get_state ;;
   let grad := repeat 0 (length params) in
   t1 <- lift (np_divide Y AL) ;;
   t2 <- lift (np_divide (mmap (fun y => 1 - y) Y)
                         (mmap (fun x => Rmax x eps)
                               (mmap (fun a => 1 - a) AL))) ;;
   dA <- lift (np_add (mmap Ropp t1) t2) ;;
   ' (_, grad) <- for_each (reversed (range 1 (length (layers model))))
                           (backward_body A Z) (dA, grad) ;;
   ret grad)%prog.

Definition _cost (X Y : ndarray) : prog vec (R * vec) :=
  (' (A, Z) <- _propagate_forward X ;;
   AL <- lift (getitem_last A) ;;
   cost <- _compute_cost AL Y ;;
   grad <- _propagate_backward A Z Y ;;
   ret (cost, grad))%prog.

End Classifier.

(** ** Prediction, initialisation and training (lines 107-149) *)

Record NnClassifier : Type :=
  mk_classifier { clf_model : NnModel;
                  clf_optimizer : GradDescentOptimizer;
                  clf_params : option vec;
                  clf_lambd : R }.

(** A boolean 2-D array, as [A > 0.5] builds one. *)
Record bool_ndarray : Type :=
  mk_bool_nd { brows : nat; bcols : nat; bdata : list bool }.

(** [a > 0.5]. *)
Definition gt_half (a : R) : bool := if Rlt_dec 0.5 a then true else false.

(** [unpack_params(l, self.params)] when [self.params] may still be [None]:
    the lookups in the model come first, then the subscript of [params], and
    [None] is not subscriptable. *)
Definition unpack_params_of (self : NnModel) (layer : nat) (params : option vec)
  : res (ndarray * ndarray) :=
  match params with
  | Some p => fst (unpack_params self layer p)
  | None =>
      (prev <- getitem_pred (layers self) layer ;;
       cur <- getitem (layers self) layer ;;
       entry <- getitem (layer_offsets self) layer ;;
       ' (w_offset, b_offset) <- ranges_of entry ;;
       Err TypeError)%res
  end.

Definition predict_body (model : NnModel) (params : option vec) (X : ndarray)
  (l : nat) (A : ndarray) : prog unit ndarray :=
  (layer <- lift (getitem (layers model) l) ;;
   ' (W, b) <- lift (unpack_params_of model l params) ;;
   WA <- lift (np_dot W A) ;;
   Z <- lift (np_add WA b) ;;
   fns <- lift (subscript (activation layer)) ;;
   let A := act_value fns Z in
   py_assert (shape_eqb A (dim layer) (ncols X)) ;;;
   ret A)%prog.

Definition predict (model : NnModel) (params : option vec) (X : ndarray)
  : res bool_ndarray :=
  fst ((layer0 <- lift (getitem (layers model) 0) ;;
        py_assert (nrows X =? dim layer0)%nat ;;;
        A <- for_each (range 1 (length (layers model)))
                      (predict_body model params X) X ;;
        let Y_pred := mk_bool_nd (nrows A) (ncols A) (map gt_half (data A)) in
        py_assert ((brows Y_pred =? 1)%nat && (bcols Y_pred =? ncols X)%nat) ;;;
        ret Y_pred)%prog tt).

(** [np.random.randn(r, c)] at the call made for layer [l]: the seeded
    generator is not part of the program, so the stream of draws is a
    parameter, [noise l i j] being item [(i, j)] of that call's result. *)
Definition randn (noise : nat -> nat -> nat -> R) (l r c : nat) : ndarray :=
  tabulate r c (noise l).

Definition init_params_body (model : NnModel) (noise : nat -> nat -> nat -> R)
  (l : nat) (_ : unit) : prog vec unit :=
  (prev <- lift (getitem_pred (layers model) l) ;;
   cur <- lift (getitem (layers model) l) ;;
   let prev_layer_dim := dim prev in
   let layer_dim := dim cur in
   let G := randn noise l layer_dim prev_layer_dim in
   c <- lift (py_fdiv 2 prev_layer_dim) ;;
   let W := mmap (fun x => x * sqrt c) G in
   let b := mk_nd layer_dim 1 (repeat 0 layer_dim) in
   pack_params model l W b)%prog.

Definition _init_params (model : NnModel) (noise : nat -> nat -> nat -> R)
  : res vec :=
  (d <- param_len (layers model) ;;
   let params := repeat 0 d in
   on_buffer (for_each (range 1 (length (layers model)))
                       (init_params_body model noise) tt) params)%res.

(** [train]: the state is the classifier object and what has been printed.
    The closure [J] hands [params] to [_cost], which stores nothing into it
    (see [cost_read_only]), so [J] is the result of [_cost] alone. *)
Definition train (noise : nat -> nat -> nat -> R) (X Y : ndarray)
  : prog (NnClassifier * stdout) (list R) :=
  fun st =>
    let '(self, out) := st in
    let J := fun params => fst (_cost (clf_model self) (clf_lambd self) X Y params) in
    match _init_params (clf_model self) noise with
    | Err e => (Err e, (self, out))
    | Ok guess =>
        match optimize (clf_optimizer self) J guess out with
        | (Ok (params, costs), out') =>
            (Ok costs,
             (mk_classifier (clf_model self) (clf_optimizer self) (Some params)
                            (clf_lambd self), out'))
        | (Err e, out') => (Err e, (self, out'))
        end
    end.

(** ** The cost where a logarithm leaves the reals (lines 151-168)

    [np.log] is finite only above 0: [np.log(0.)] is [-inf] and the logarithm
    of a negative number is [nan]; numpy warns and raises nothing.
    [_compute_cost] takes [np.log(AL)] and [np.log(1. - AL)] of whatever the
    forward pass returns, without clipping, so its value is a real number, an
    infinity or [nan].  The embedding below keeps these three cases; sums,
    products and negation of them follow IEEE 754, and the finite part stays
    idealised as everywhere else. *)





















(** * The specification's side

    What the specification says in closed form, to be compared with what the
    code computes, and the notions that the comparison needs: the state of a
    buffer after a store, the state of a loop after some rounds. *)

(** ** The flat layout of the parameters *)

Definition no_layer : NnLayer := mk_layer 0 None.

Section Layout.

Variable ls : list NnLayer.

(** [dim[l]]. *)
Definition dimn (l : nat) : nat := dim (nth l ls no_layer).

(** The number of parameters of layer [l]: [dim[l]*dim[l-1] + dim[l]] for a
    transformation layer, none for the input layer. *)
Definition block (l : nat) : nat :=
  match l with
  | O => O
  | S l' => (dimn l' * dimn l + dimn l)%nat
  end.

(** [off l = Σ_{1 <= k < l} (dim[k]*dim[k-1] + dim[k])]: where layer [l]
    starts. *)
Fixpoint off (l : nat) : nat :=
  match l with
  | O => O
  | S l' => (off l' + block l')%nat
  end.

Definition w_range (l : nat) : nat * nat :=
  (off l, off l + dimn (l - 1) * dimn l)%nat.
Definition b_range (l : nat) : nat * nat :=
  (snd (w_range l), snd (w_range l) + dimn l)%nat.

Definition table_entry (l : nat) : offset_entry :=
  OffLayer (w_range l) (b_range l).

Definition table : list offset_entry :=
  OffInit :: map table_entry (range 1 (length ls)).

Definition total_len : nat := off (length ls).

End Layout.

(** The indices that an entry of the offset table names, in order. *)
Definition entry_indices (e : offset_entry) : list nat :=
  match e with
  | OffInit => []
  | OffLayer w b => range (fst w) (snd w) ++ range (fst b) (snd b)
  end.

(** The buffer after [v] has been stored from index [a] on. *)
Definition write (a : nat) (v p : vec) : vec :=
  firstn a p ++ v ++ skipn (a + length v) p.

(** A model whose offset table is the one [compile] builds for its layers. *)
Definition compiled (model : NnModel) : Prop :=
  layer_offsets model = table (layers model).

(** The buffer after [pack_params] has stored [W] and [b] at layer [l]. *)
Definition packed (ls : list NnLayer) (l : nat) (W b : ndarray) (p : vec) : vec :=
  write (fst (b_range ls l)) (data b) (write (fst (w_range ls l)) (data W) p).

(** ** Layers of a parameter vector, forward caches, gradients *)


(** The backward rule of an activation as a formula, without shape checks. *)
Definition backward_rule (t : act_tuple) (dA Z : ndarray) : ndarray :=
  match t with
  | ActRelu => bcast Rmult dA (mmap indicator_pos Z)
  | ActSigmoid =>
      bcast Rmult (bcast Rmult dA (sigmoid Z)) (mmap (fun x => 1 - x) (sigmoid Z))
  end.

(** The array [L] of [_compute_cost]. *)
Definition loss_matrix (AL Y : ndarray) : ndarray :=
  mmap Ropp
    (bcast Rplus
       (bcast Rmult Y (mmap ln AL))
       (bcast Rmult (mmap (fun y => 1 - y) Y)
                    (mmap ln (mmap (fun a => 1 - a) AL)))).

Section Network.

Variable model : NnModel.
Variable lambd : R.
Variable params : vec.
Variables X Y : ndarray.

Let ls := layers model.

(** The top layer [L] and the batch size [m]. *)
Definition top : nat := (length ls - 1)%nat.
Definition batch : nat := ncols X.

(** [W_l] and [b_l]: the two blocks of layer [l] in a flat vector [p]. *)
Definition W_of (p : vec) (l : nat) : ndarray :=
  mk_nd (dimn ls l) (dimn ls (l - 1))
        (slice (fst (w_range ls l)) (snd (w_range ls l)) p).
Definition b_of (p : vec) (l : nat) : ndarray :=
  mk_nd (dimn ls l) 1 (slice (fst (b_range ls l)) (snd (b_range ls l)) p).

(** [activation[l]]. *)
Definition actn (l : nat) : act_tuple :=
  match activation (nth l ls no_layer) with
  | Some t => t
  | None => ActRelu
  end.

(** [W·A + b], the bias added to every column. *)
Definition affine (W A b : ndarray) : ndarray := bcast Rplus (mdot W A) b.

(** [A[0] = X], [Z[l] = W_l·A[l-1] + b_l], [A[l] = activation[l].value(Z[l])]. *)
Fixpoint fwd_A (l : nat) : ndarray :=
  match l with
  | O => X
  | S l' => act_value (actn l) (affine (W_of params l) (fwd_A l') (b_of params l))
  end.
Definition fwd_Z (l : nat) : ndarray :=
  affine (W_of params l) (fwd_A (l - 1)) (b_of params l).

(** The caches after the rounds for layers [1..k]. *)
Definition cache_A (k : nat) : list ndarray := map fwd_A (seq 0 (S k)).
Definition cache_Z (k : nat) : list (option ndarray) :=
  None :: map (fun l => Some (fwd_Z l)) (seq 1 k).

(** [dA_L = -Y/A_L + (1-Y)/max(1-A_L, ε)]. *)
Definition seed (AL : ndarray) : ndarray :=
  bcast Rplus
    (mmap Ropp (bcast Rdiv Y AL))
    (bcast Rdiv (mmap (fun y => 1 - y) Y)
                (mmap (fun x => Rmax x eps) (mmap (fun a => 1 - a) AL))).

(** [bp_dA k] is the upstream gradient after [k] layers have been handled,
    that is [dA] for layer [L - k]. *)
Fixpoint bp_dA (k : nat) : ndarray :=
  match k with
  | O => seed (fwd_A top)
  | S k' =>
      let l := (top - k')%nat in
      mdot (transpose (W_of params l))
           (backward_rule (actn l) (bp_dA k') (fwd_Z l))
  end.

Definition dA_at (l : nat) : ndarray := bp_dA (top - l).
Definition dZ_at (l : nat) : ndarray :=
  backward_rule (actn l) (dA_at l) (fwd_Z l).

(** [dW_l = (1/m)·dZ·A[l-1]^T + (λ/m)·W_l] and [db_l = (1/m)·row-sum(dZ)]. *)
Definition dW_at (l : nat) : ndarray :=
  bcast Rplus
    (mmap (Rmult (1 / INR batch)) (mdot (dZ_at l) (transpose (fwd_A (l - 1)))))
    (mmap (Rmult (lambd / INR batch)) (W_of params l)).
Definition db_at (l : nat) : ndarray :=
  mmap (Rmult (1 / INR batch)) (np_sum_rows (dZ_at l)).



(** One term of the penalty as [_compute_cost] adds it. *)
Definition penalty_term (m l : nat) : R :=
  lambd / INR (2 * m) * np_sum (mmap Rsqr (W_of params l)).

(** The cost as the code accumulates it. *)
Definition cost_value : R :=
  1 / INR batch * np_sum (loss_matrix (fwd_A top) Y)
  + sum_list (map (penalty_term batch) (range 1 (length ls))).

(** The state of the backward loop after [k] rounds: layers [L-k+1 .. L] are
    in the gradient buffer. *)
Definition backward_inv (k : nat) (st : ndarray * vec) (s : vec) : Prop :=
  fst st = bp_dA k /\ s = params /\ length (snd st) = total_len ls
  /\ forall l, (top - k < l <= top)%nat ->
               W_of (snd st) l = dW_at l /\ b_of (snd st) l = db_at l.

End Network.


(** ** The descent sequence *)

(** [p - α·g] on vectors of one length. *)
Definition descent_step (a : R) (p g : vec) : vec :=
  zip_with Rminus p (map (Rmult a) g).

(** The indices whose cost is recorded: [i mod 100 == 0]. *)
Definition logged (n : nat) : list nat :=
  filter (fun i => (i mod 100 =? 0)%nat) (seq 0 n).

(** What [print] writes when [debug] is set, for the costs [cs]. *)
Definition debug_lines (self : GradDescentOptimizer) (cs : nat -> R) (n : nat)
  : stdout :=
  if debug self then map (fun i => (i, cs i)) (logged n) else [].

(** ** Sequences of [add] calls *)

(** A call [add(units, activation, input_dim)]. *)
Definition add_call : Type := nat * string * nat.

(** The model after a sequence of [add] calls; a call that raises leaves the
    model as it was when the exception left [add], and the next call goes on
    from there. *)
Definition run_adds (calls : list add_call) (m : NnModel) : NnModel :=
  fold_left (fun m '(units, act, input_dim) => snd (add units act input_dim m))
            calls m.

(** ** A small network: two inputs, one sigmoid unit *)

Definition tiny_model : NnModel :=
  snd (compile (snd (add 1 "sigmoid" 2 new_model))).

Definition tiny_params : vec := [2; 3; 5].
Definition tiny_X : ndarray := mk_nd 2 1 [1; 1].
Definition tiny_Y : ndarray := mk_nd 1 1 [1].

(** ** A network with a hidden layer: two inputs, two relu units, one sigmoid
    unit *)

Definition small_net : NnModel :=
  snd (compile (snd (add 1 "sigmoid" 0 (snd (add 2 "relu" 2 new_model))))).

(** ** A network whose output can be exactly 0: one input, one relu unit *)


(** A classifier on the small network of one unit, not yet trained. *)
Definition tiny_classifier : NnClassifier :=
  mk_classifier tiny_model (mk_optimizer (1 / 10) false 3) None 0.

(** ** Notions for the further properties *)

(** A program that leaves the state as it found it, also when it raises. *)
Definition read_only {S A} (m : prog S A) : Prop := forall s, snd (m s) = s.

(** The gradient that [_cost] returns at [p] ([[]] when it raises). *)
Definition grad_of (model : NnModel) (lambd : R) (X Y : ndarray) (p : vec) : vec :=
  match fst (_cost model lambd X Y p) with
  | Ok (_, g) => g
  | Err _ => []
  end.

(** The parameters before step [i] of a descent on [_cost] from [p0]. *)
Fixpoint descent_params (model : NnModel) (lambd a : R) (X Y : ndarray)
  (p0 : vec) (i : nat) : vec :=
  match i with
  | O => p0
  | S i' =>
      let p := descent_params model lambd a X Y p0 i' in
      descent_step a p (grad_of model lambd X Y p)
  end.

(** [A > 0.5] as an array. *)
Definition threshold (A : ndarray) : bool_ndarray :=
  mk_bool_nd (nrows A) (ncols A) (map gt_half (data A)).

(** The He-scaled draw that [_init_params] stores as [W_l]. *)
Definition he_weights (model : NnModel) (noise : nat -> nat -> nat -> R)
  (l : nat) : ndarray :=
  mmap (fun x => x * sqrt (2 / INR (dimn (layers model) (l - 1))))
       (randn noise l (dimn (layers model) l) (dimn (layers model) (l - 1))).

Definition zero_bias (model : NnModel) (l : nat) : ndarray :=
  mk_nd (dimn (layers model) l) 1 (repeat 0 (dimn (layers model) l)).

(** * Reasoning about the embedding *)

(** ** Loops *)

(** The loop rule: an invariant indexed by the number of completed rounds. *)
Lemma for_each_inv {St T Acc} (Inv : nat -> Acc -> St -> Prop)
  (xs : list T) (body : T -> Acc -> prog St Acc) (acc : Acc) (s : St) :
  Inv O acc s ->
  (forall k x a t, nth_error xs k = Some x -> Inv k a t ->
     exists a' t', body x a t = (Ok a', t') /\ Inv (S k) a' t') ->
  exists a' t', for_each xs body acc s = (Ok a', t') /\ Inv (length xs) a' t'.
Proof.
  revert Inv acc s; induction xs as [|x xs IH]; intros Inv acc s H0 Hstep; simpl.
  - exists acc, s; split; [reflexivity | assumption].
  - destruct (Hstep O x acc s eq_refl H0) as (a1 & s1 & Hb & H1).
    unfold bind; rewrite Hb.
    apply (IH (fun k => Inv (S k))); [assumption|].
    intros k y a t Hk HI. apply (Hstep (S k) y a t); assumption.
Qed.

Lemma length_range (a b : nat) : length (range a b) = (b - a)%nat.
Proof. apply length_seq. Qed.

Lemma nth_error_range (a b k : nat) :
  (k < b - a)%nat -> nth_error (range a b) k = Some (a + k)%nat.
Proof.
  intros H; unfold range.
  rewrite (nth_error_nth' _ O) by (rewrite length_seq; exact H).
  rewrite seq_nth by exact H; reflexivity.
Qed.

Lemma nth_error_range_inv (a b k x : nat) :
  nth_error (range a b) k = Some x -> (k < b - a)%nat /\ x = (a + k)%nat.
Proof.
  intros H.
  assert (Hk : (k < b - a)%nat).
  { assert (Hs : nth_error (range a b) k <> None) by congruence.
    apply nth_error_Some in Hs. rewrite length_range in Hs. exact Hs. }
  split; [exact Hk|]. rewrite nth_error_range in H by exact Hk. congruence.
Qed.

Lemma range_plus (a n : nat) : range a (a + n) = seq a n.
Proof. unfold range. f_equal. lia. Qed.

Lemma getitem_nth {A} (xs : list A) (i : nat) (d : A) :
  (i < length xs)%nat -> getitem xs i = Ok (nth i xs d).
Proof.
  intros H; unfold getitem. rewrite (nth_error_nth' _ d) by exact H. reflexivity.
Qed.

Lemma getitem_pred_nth {A} (xs : list A) (i : nat) (d : A) :
  (1 <= i <= length xs)%nat -> getitem_pred xs i = Ok (nth (i - 1) xs d).
Proof.
  intros H; destruct i as [|j]; [lia|]. simpl.
  rewrite Nat.sub_0_r. apply getitem_nth; lia.
Qed.

(** ** The offset table *)

Lemma off_succ (ls : list NnLayer) (l : nat) :
  (1 <= l)%nat -> off ls (S l) = snd (b_range ls l).
Proof.
  intros H; destruct l as [|l']; [lia|].
  unfold b_range, w_range; simpl. rewrite Nat.sub_0_r. lia.
Qed.

Lemma off_mono (ls : list NnLayer) (l l' : nat) :
  (l <= l')%nat -> (off ls l <= off ls l')%nat.
Proof. induction 1; simpl; lia. Qed.

Lemma b_range_le_total (ls : list NnLayer) (l : nat) :
  (1 <= l < length ls)%nat -> (snd (b_range ls l) <= total_len ls)%nat.
Proof.
  intros H. rewrite <- off_succ by lia. apply off_mono; lia.
Qed.

Lemma entry_indices_table (ls : list NnLayer) (l : nat) :
  (1 <= l)%nat ->
  entry_indices (table_entry ls l) = seq (off ls l) (block ls l).
Proof.
  intros H; destruct l as [|l']; [lia|].
  unfold table_entry, entry_indices, b_range, w_range.
  cbn [fst snd block]. rewrite !range_plus, <- seq_app.
  replace (S l' - 1)%nat with l' by lia. reflexivity.
Qed.

Lemma table_prefix_indices (ls : list NnLayer) (k : nat) :
  flat_map entry_indices (map (table_entry ls) (seq 1 k)) = seq 0 (off ls (S k)).
Proof.
  induction k as [|k IH].
  - reflexivity.
  - rewrite seq_S, map_app, flat_map_app, IH. cbn [map flat_map].
    rewrite app_nil_r, entry_indices_table by lia.
    change (off ls (S (S k))) with (off ls (S k) + block ls (S k))%nat.
    rewrite seq_app. reflexivity.
Qed.

Lemma compile_body_ok (ls : list NnLayer) (os : list offset_entry) (l : nat) :
  (1 <= l < length ls)%nat ->
  compile_body l (off ls l) (mk_model ls os)
  = (Ok (off ls (S l)), mk_model ls (os ++ [table_entry ls l])).
Proof.
  intros H. unfold compile_body, bind, get_state, lift, append_offset, ret.
  cbn [layers layer_offsets].
  rewrite (getitem_pred_nth _ no_layer) by lia.
  rewrite (getitem_nth _ no_layer) by lia.
  cbn [layers layer_offsets]. unfold table_entry, b_range, w_range, dimn.
  destruct l as [|l']; [lia|]. simpl. rewrite Nat.sub_0_r.
  unfold dimn. rewrite Nat.add_assoc. reflexivity.
Qed.

Lemma compile_ok (m : NnModel) :
  compile m = (Ok tt, mk_model (layers m) (table (layers m))).
Proof.
  unfold compile. unfold bind at 1. unfold get_state.
  unfold bind at 1. unfold put_state. unfold bind at 1.
  set (ls := layers m).
  destruct (for_each_inv
              (fun k acc s => acc = off ls (S k)
                 /\ s = mk_model ls (OffInit :: map (table_entry ls) (seq 1 k)))
              (range 1 (length ls)) compile_body O
              (mk_model ls [OffInit])) as (a & s & Hrun & Hacc & Hs).
  - split; reflexivity.
  - intros k x acc t Hx [-> ->].
    apply nth_error_range_inv in Hx; destruct Hx as [Hk ->].
    eexists _, _; split.
    + change (off ls (S k)) with (off ls (1 + k)).
      apply compile_body_ok; lia.
    + split; [reflexivity|]. rewrite seq_S, map_app. reflexivity.
  - rewrite Hrun, Hs, length_range. reflexivity.
Qed.

Lemma total_len_sum (ls : list NnLayer) (k : nat) :
  off ls (S k)
  = list_sum (map (fun l => dimn ls l * dimn ls (l - 1) + dimn ls l)%nat (seq 1 k)).
Proof.
  induction k as [|k IH].
  - reflexivity.
  - rewrite seq_S, map_app, list_sum_app, <- IH. cbn [map list_sum].
    change (off ls (S (S k))) with (off ls (S k) + block ls (S k))%nat.
    cbn [block]. change (1 + k)%nat with (S k).
    replace (S k - 1)%nat with k by lia. cbn [list_sum fold_right]. lia.
Qed.

Lemma param_len_ok (ls : list NnLayer) : param_len ls = Ok (total_len ls).
Proof.
  unfold param_len.
  destruct (for_each_inv (fun k acc (_ : unit) => acc = off ls (S k))
              (range 1 (length ls)) (param_len_body ls) O tt)
    as (a & s & Hrun & Ha).
  - reflexivity.
  - intros k x acc t Hx ->.
    apply nth_error_range_inv in Hx; destruct Hx as [Hk ->].
    eexists _, t; split; [|reflexivity].
    unfold param_len_body, bind, lift, ret.
    rewrite (getitem_nth _ no_layer) by lia.
    rewrite (getitem_pred_nth _ no_layer) by lia.
    do 2 f_equal. cbn [Nat.add block off]. unfold dimn.
    replace (S k - 1)%nat with k by lia. lia.
  - rewrite Hrun, Ha, length_range. cbn [fst]. f_equal. unfold total_len.
    destruct (length ls) as [|n]; [reflexivity|].
    f_equal; lia.
Qed.

Lemma nth_error_table (ls : list NnLayer) (l : nat) :
  (1 <= l < length ls)%nat ->
  nth_error (table ls) l = Some (table_entry ls l).
Proof.
  intros H. unfold table. destruct l as [|l']; [lia|]. cbn [nth_error].
  rewrite nth_error_map, nth_error_range by lia. reflexivity.
Qed.

Lemma table_indices (ls : list NnLayer) :
  flat_map entry_indices (table ls) = seq 0 (total_len ls).
Proof.
  unfold table, total_len. cbn [flat_map entry_indices app].
  unfold range. rewrite table_prefix_indices.
  destruct (length ls) as [|n]; [reflexivity|].
  replace (S (S n - 1)) with (S n) by lia. reflexivity.
Qed.

(** ** Slices of a buffer *)

Lemma length_slice (a b : nat) (p : vec) :
  (b <= length p)%nat -> length (slice a b p) = (b - a)%nat.
Proof.
  intros H. unfold slice. rewrite length_firstn, length_skipn. lia.
Qed.

Lemma nth_slice (a b i : nat) (p : vec) (d : R) :
  (i < b - a)%nat -> nth i (slice a b p) d = nth (a + i) p d.
Proof.
  intros H. unfold slice. rewrite nth_firstn.
  assert (E : (i <? b - a)%nat = true) by (apply Nat.ltb_lt; exact H).
  rewrite E, nth_skipn. reflexivity.
Qed.

Lemma length_write (a : nat) (v p : vec) :
  (a + length v <= length p)%nat -> length (write a v p) = length p.
Proof.
  intros H. unfold write. rewrite !length_app, length_firstn, length_skipn. lia.
Qed.

Lemma nth_write (a i : nat) (v p : vec) (d : R) :
  (a + length v <= length p)%nat ->
  nth i (write a v p) d
  = if (i <? a)%nat then nth i p d
    else if (i <? a + length v)%nat then nth (i - a) v d
         else nth i p d.
Proof.
  intros H. unfold write.
  assert (La : length (firstn a p) = a) by (rewrite length_firstn; lia).
  destruct (Nat.ltb_spec i a) as [Hi|Hi].
  - rewrite app_nth1 by lia. rewrite nth_firstn.
    assert (E : (i <? a)%nat = true) by (apply Nat.ltb_lt; exact Hi).
    rewrite E. reflexivity.
  - rewrite app_nth2 by lia. rewrite La.
    destruct (Nat.ltb_spec i (a + length v)) as [Hj|Hj].
    + rewrite app_nth1 by lia. reflexivity.
    + rewrite app_nth2 by lia. rewrite nth_skipn. f_equal. lia.
Qed.

Lemma slice_write_same (a : nat) (v p : vec) :
  (a + length v <= length p)%nat -> slice a (a + length v) (write a v p) = v.
Proof.
  intros H. apply (nth_ext _ _ 0 0).
  - rewrite length_slice by (rewrite length_write; lia). lia.
  - intros i Hi. rewrite length_slice in Hi by (rewrite length_write; lia).
    rewrite nth_slice by lia. rewrite nth_write by exact H.
    assert (E1 : (a + i <? a)%nat = false) by (apply Nat.ltb_ge; lia).
    assert (E2 : (a + i <? a + length v)%nat = true) by (apply Nat.ltb_lt; lia).
    rewrite E1, E2. f_equal. lia.
Qed.

Lemma slice_write_other (a c d : nat) (v p : vec) :
  (a + length v <= length p)%nat -> (d <= length p)%nat ->
  (d <= a \/ a + length v <= c)%nat ->
  slice c d (write a v p) = slice c d p.
Proof.
  intros H Hd Hdis. apply (nth_ext _ _ 0 0).
  - rewrite !length_slice; [reflexivity | lia | rewrite length_write; lia].
  - intros i Hi. rewrite length_slice in Hi by (rewrite length_write; lia).
    rewrite !nth_slice by lia. rewrite nth_write by exact H.
    destruct (Nat.ltb_spec (c + i) a) as [H1|H1]; [reflexivity|].
    destruct (Nat.ltb_spec (c + i) (a + length v)) as [H2|H2]; [lia|reflexivity].
Qed.

Lemma slice_assign_ok (a b : nat) (v p : vec) :
  (b <= length p)%nat -> length v = (b - a)%nat ->
  slice_assign a b v p = (Ok tt, write a v p).
Proof.
  intros Hb Hv. unfold slice_assign, write.
  rewrite length_slice by exact Hb.
  assert (E : (length v =? b - a)%nat = true) by (apply Nat.eqb_eq; exact Hv).
  rewrite E, Hv. reflexivity.
Qed.

(** ** Arrays *)

Lemma length_tabulate (r c : nat) (f : nat -> nat -> R) :
  length (data (tabulate r c f)) = (r * c)%nat.
Proof.
  unfold tabulate; cbn [data]. generalize 0%nat at 2.
  induction r as [|r IH]; intros s; simpl.
  - reflexivity.
  - rewrite length_app, length_map, length_seq, IH. reflexivity.
Qed.

Lemma wf_tabulate (r c : nat) (f : nat -> nat -> R) : wf (tabulate r c f).
Proof. unfold wf. rewrite length_tabulate. reflexivity. Qed.

Lemma wf_mmap (f : R -> R) (M : ndarray) : wf M -> wf (mmap f M).
Proof. unfold wf, mmap; cbn. rewrite length_map. trivial. Qed.

Lemma wf_bcast (f : R -> R -> R) (M N : ndarray) : wf (bcast f M N).
Proof. apply wf_tabulate. Qed.

Lemma wf_mdot (M N : ndarray) : wf (mdot M N).
Proof. apply wf_tabulate. Qed.

Create HintDb nn.
#[local] Hint Resolve wf_tabulate wf_mmap wf_bcast wf_mdot : nn.

Lemma nth_flat_rows (c r s i j : nat) (f : nat -> nat -> R) :
  (i < r)%nat -> (j < c)%nat ->
  nth (i * c + j) (flat_map (fun i => map (f i) (seq 0 c)) (seq s r)) 0
  = f (s + i)%nat j.
Proof.
  revert s i; induction r as [|r IH]; intros s i Hi Hj; [lia|].
  cbn [seq flat_map]. destruct i as [|i].
  - rewrite app_nth1 by (rewrite length_map, length_seq; lia).
    cbn [Nat.mul Nat.add].
    rewrite (nth_indep _ 0 (f s 0%nat)) by (rewrite length_map, length_seq; lia).
    rewrite map_nth, seq_nth by lia. rewrite Nat.add_0_r. reflexivity.
  - rewrite app_nth2 by (rewrite length_map, length_seq; simpl; lia).
    rewrite length_map, length_seq.
    replace (S i * c + j - c)%nat with (i * c + j)%nat by (simpl; lia).
    rewrite IH by lia. f_equal. lia.
Qed.

Lemma get_tabulate (r c i j : nat) (f : nat -> nat -> R) :
  (i < r)%nat -> (j < c)%nat -> get (tabulate r c f) i j = f i j.
Proof.
  intros Hi Hj. unfold get, tabulate; cbn [ncols data].
  apply (nth_flat_rows 0 f Hi Hj).
Qed.

(** What the array operations compute, item by item. *)
Lemma get_mdot (M N : ndarray) (i j : nat) :
  (i < nrows M)%nat -> (j < ncols N)%nat ->
  get (mdot M N) i j = big_sum (ncols M) (fun k => get M i k * get N k j).
Proof. intros; unfold mdot; rewrite get_tabulate; trivial. Qed.

Lemma get_transpose (M : ndarray) (i j : nat) :
  (i < ncols M)%nat -> (j < nrows M)%nat -> get (transpose M) i j = get M j i.
Proof. intros; unfold transpose; rewrite get_tabulate; trivial. Qed.

(** ** The parameter codec *)

Lemma compiled_compile (m : NnModel) : compiled (snd (compile m)).
Proof. rewrite compile_ok. reflexivity. Qed.

Lemma w_range_bounds (ls : list NnLayer) (l : nat) :
  (1 <= l < length ls)%nat ->
  (snd (w_range ls l) <= total_len ls)%nat
  /\ (snd (w_range ls l) - fst (w_range ls l) = dimn ls l * dimn ls (l - 1))%nat.
Proof.
  intros H. pose proof (b_range_le_total ls H) as Hb.
  unfold b_range, w_range in *. cbn [fst snd] in *. split; lia.
Qed.

Lemma b_range_bounds (ls : list NnLayer) (l : nat) :
  (1 <= l < length ls)%nat ->
  (snd (b_range ls l) <= total_len ls)%nat
  /\ (snd (b_range ls l) - fst (b_range ls l) = dimn ls l)%nat.
Proof.
  intros H. pose proof (b_range_le_total ls H) as Hb.
  unfold b_range, w_range in *. cbn [fst snd] in *. split; lia.
Qed.

Lemma reshape_ok (l : list R) (r c : nat) :
  length l = (r * c)%nat -> reshape l r c = Ok (mk_nd r c l).
Proof.
  intros H. unfold reshape.
  assert (E : (length l =? r * c)%nat = true) by (apply Nat.eqb_eq; exact H).
  rewrite E. reflexivity.
Qed.

(** [unpack_params] never stores into the buffer it reads. *)
Lemma unpack_params_read_only (model : NnModel) (l : nat) (p : vec) :
  snd (unpack_params model l p) = p.
Proof.
  unfold unpack_params, bind, lift, get_state, ret.
  destruct (getitem_pred (layers model) l); [|reflexivity].
  destruct (getitem (layers model) l); [|reflexivity].
  destruct (getitem (layer_offsets model) l) as [e|]; [|reflexivity].
  destruct (ranges_of e) as [[w b]|]; [|reflexivity].
  destruct (reshape _ _ _); [|reflexivity].
  destruct (reshape _ _ _); reflexivity.
Qed.

Lemma unpack_params_ok (model : NnModel) (l : nat) (p : vec) :
  compiled model -> length p = total_len (layers model) ->
  (1 <= l < length (layers model))%nat ->
  unpack_params model l p = (Ok (W_of model p l, b_of model p l), p).
Proof.
  intros Hc Hp Hl. unfold unpack_params, bind, lift, get_state, ret.
  rewrite (getitem_pred_nth _ no_layer) by lia.
  rewrite (getitem_nth _ no_layer) by lia.
  rewrite Hc. unfold getitem. rewrite nth_error_table by exact Hl.
  cbn [ranges_of table_entry].
  destruct (w_range_bounds (layers model) Hl) as [Hw1 Hw2].
  destruct (b_range_bounds (layers model) Hl) as [Hb1 Hb2].
  rewrite reshape_ok by (rewrite length_slice by lia; exact Hw2).
  rewrite reshape_ok by (rewrite length_slice by lia; rewrite Hb2; unfold dimn; lia).
  reflexivity.
Qed.

Lemma pack_params_ok (model : NnModel) (l : nat) (W b : ndarray) (p : vec) :
  compiled model -> length p = total_len (layers model) ->
  (1 <= l < length (layers model))%nat ->
  wf W -> wf b ->
  nrows W = dimn (layers model) l -> ncols W = dimn (layers model) (l - 1) ->
  nrows b = dimn (layers model) l -> ncols b = 1%nat ->
  pack_params model l W b p = (Ok tt, packed (layers model) l W b p).
Proof.
  intros Hc Hp Hl HW Hb HW1 HW2 Hb1 Hb2.
  unfold pack_params, bind, lift, get_state, ret.
  rewrite (getitem_nth _ no_layer) by lia.
  rewrite (getitem_pred_nth _ no_layer) by lia.
  unfold shape_eqb. fold (dimn (layers model) l) (dimn (layers model) (l - 1)).
  rewrite HW1, HW2, Hb1, Hb2, !Nat.eqb_refl. cbn [andb py_assert ret].
  rewrite Hc. unfold getitem. rewrite nth_error_table by exact Hl.
  cbn [ranges_of table_entry fst snd].
  destruct (w_range_bounds (layers model) Hl) as [Hw1' Hw2'].
  destruct (b_range_bounds (layers model) Hl) as [Hb1' Hb2'].
  red in HW, Hb.
  rewrite slice_assign_ok by (try lia; rewrite HW, HW1, HW2; lia).
  rewrite slice_assign_ok; [reflexivity | | rewrite Hb, Hb1, Hb2; lia].
  rewrite length_write; [lia|].
  rewrite HW, HW1, HW2. unfold w_range in *; cbn [fst snd] in *. lia.
Qed.

Lemma ranges_chain (ls : list NnLayer) (l : nat) :
  (1 <= l)%nat ->
  fst (w_range ls l) = off ls l
  /\ fst (b_range ls l) = snd (w_range ls l)
  /\ snd (b_range ls l) = off ls (S l)
  /\ (fst (w_range ls l) <= snd (w_range ls l) <= snd (b_range ls l))%nat.
Proof.
  intros H. rewrite off_succ by exact H.
  unfold b_range, w_range; cbn [fst snd]. repeat split; lia.
Qed.

Lemma ranges_apart (ls : list NnLayer) (l l' : nat) :
  (1 <= l < l')%nat -> (snd (b_range ls l) <= fst (w_range ls l'))%nat.
Proof.
  intros H.
  destruct (ranges_chain ls (l := l)) as (_ & _ & E & _); [lia|].
  destruct (ranges_chain ls (l := l')) as (E' & _); [lia|].
  rewrite E, E'. apply off_mono; lia.
Qed.

Section Packed.

Variable model : NnModel.
Variables (l : nat) (W b : ndarray) (p : vec).

Let ls := layers model.

Hypothesis Hp : length p = total_len ls.
Hypothesis Hl : (1 <= l < length ls)%nat.
Hypothesis HW : wf W.
Hypothesis Hb : wf b.
Hypothesis HW1 : nrows W = dimn ls l.
Hypothesis HW2 : ncols W = dimn ls (l - 1).
Hypothesis Hb1 : nrows b = dimn ls l.
Hypothesis Hb2 : ncols b = 1%nat.

Lemma packed_facts :
  length (data W) = (snd (w_range ls l) - fst (w_range ls l))%nat
  /\ length (data b) = (snd (b_range ls l) - fst (b_range ls l))%nat
  /\ (snd (b_range ls l) <= length p)%nat.
Proof.
  destruct (w_range_bounds ls Hl) as [_ E1].
  destruct (b_range_bounds ls Hl) as [E2 E3].
  red in HW, Hb. rewrite HW, Hb, HW1, HW2, Hb1, Hb2, E1, E3, Hp.
  repeat split; lia.
Qed.

Lemma length_packed : length (packed ls l W b p) = length p.
Proof.
  destruct packed_facts as (E1 & E2 & E3).
  destruct (ranges_chain ls (l := l)) as (_ & C2 & _ & C4); [lia|].
  unfold packed. rewrite !length_write; try reflexivity; try lia.
  rewrite length_write; lia.
Qed.

Lemma W_of_packed : W_of model (packed ls l W b p) l = W.
Proof.
  destruct packed_facts as (E1 & E2 & E3).
  destruct (ranges_chain ls (l := l)) as (_ & C2 & _ & C4); [lia|].
  unfold W_of, packed. fold ls.
  rewrite slice_write_other; [| rewrite length_write; lia
                              | rewrite length_write; lia | left; lia].
  replace (snd (w_range ls l)) with (fst (w_range ls l) + length (data W))%nat
    at 1 by lia.
  rewrite slice_write_same by lia.
  rewrite <- HW1, <- HW2. destruct W; reflexivity.
Qed.

Lemma b_of_packed : b_of model (packed ls l W b p) l = b.
Proof.
  destruct packed_facts as (E1 & E2 & E3).
  destruct (ranges_chain ls (l := l)) as (_ & C2 & _ & C4); [lia|].
  unfold b_of, packed. fold ls.
  replace (snd (b_range ls l)) with (fst (b_range ls l) + length (data b))%nat
    at 1 by lia.
  rewrite slice_write_same by (rewrite length_write; lia).
  rewrite <- Hb1, <- Hb2. destruct b; reflexivity.
Qed.

Lemma packed_other (l' : nat) :
  (1 <= l' < length ls)%nat -> l' <> l ->
  W_of model (packed ls l W b p) l' = W_of model p l'
  /\ b_of model (packed ls l W b p) l' = b_of model p l'.
Proof.
  intros Hl' Hne.
  destruct packed_facts as (E1 & E2 & E3).
  destruct (ranges_chain ls (l := l)) as (_ & C2 & _ & C4); [lia|].
  destruct (ranges_chain ls (l := l')) as (_ & C2' & _ & C4'); [lia|].
  pose proof (b_range_le_total ls Hl') as T'.
  assert (Hdis : (snd (b_range ls l') <= fst (w_range ls l)
                  \/ snd (b_range ls l) <= fst (w_range ls l'))%nat).
  { destruct (Nat.lt_ge_cases l' l); [left|right]; apply ranges_apart; lia. }
  assert (Lw : length (write (fst (w_range ls l)) (data W) p) = length p)
    by (apply length_write; lia).
  unfold W_of, b_of, packed. fold ls.
  split; f_equal.
  - rewrite slice_write_other by (rewrite ?Lw; lia).
    rewrite slice_write_other by lia. reflexivity.
  - rewrite slice_write_other by (rewrite ?Lw; lia).
    rewrite slice_write_other by lia. reflexivity.
Qed.

End Packed.

(** ** Shapes *)

Lemma bdim_same (a : nat) : bdim a a = a.
Proof. unfold bdim. destruct (a =? 1)%nat; reflexivity. Qed.

Lemma bdim_one_r (a : nat) : bdim a 1 = a.
Proof. unfold bdim. destruct (Nat.eqb_spec a 1); congruence. Qed.

Lemma bdim_one_l (a : nat) : bdim 1 a = a.
Proof. reflexivity. Qed.

Lemma compatible_same (a : nat) : compatible a a = true.
Proof. unfold compatible. rewrite Nat.eqb_refl. reflexivity. Qed.

Lemma compatible_one_r (a : nat) : compatible a 1 = true.
Proof. unfold compatible. cbn. apply orb_true_r. Qed.

Lemma compatible_one_l (a : nat) : compatible 1 a = true.
Proof. unfold compatible. cbn. rewrite orb_true_r. reflexivity. Qed.

Lemma np_bcast_ok (f : R -> R -> R) (M N : ndarray) :
  compatible (nrows M) (nrows N) = true ->
  compatible (ncols M) (ncols N) = true ->
  np_bcast f M N = Ok (bcast f M N).
Proof. intros H1 H2. unfold np_bcast. rewrite H1, H2. reflexivity. Qed.

Lemma np_dot_ok (M N : ndarray) :
  ncols M = nrows N -> np_dot M N = Ok (mdot M N).
Proof. intros H. unfold np_dot. rewrite H, Nat.eqb_refl. reflexivity. Qed.

Lemma shape_act_value (t : act_tuple) (M : ndarray) :
  nrows (act_value t M) = nrows M /\ ncols (act_value t M) = ncols M.
Proof. destruct t; split; reflexivity. Qed.

Lemma shape_eqb_refl (M : ndarray) (r c : nat) :
  nrows M = r -> ncols M = c -> shape_eqb M r c = true.
Proof. intros <- <-. unfold shape_eqb. rewrite !Nat.eqb_refl. reflexivity. Qed.

Lemma subscript_ok (a : option act_tuple) :
  a <> None ->
  subscript a = Ok (match a with Some t => t | None => ActRelu end).
Proof. destruct a; [reflexivity | congruence]. Qed.

(** ** The forward pass *)

Section Forward.

Variable model : NnModel.
Variable params : vec.
Variable X : ndarray.

Let ls := layers model.

Hypothesis Hc : compiled model.
Hypothesis Hp : length params = total_len ls.
Hypothesis HX : nrows X = dimn ls 0.
Hypothesis Hact : forall l, (1 <= l < length ls)%nat ->
                            activation (nth l ls no_layer) <> None.

Lemma shape_affine (l : nat) (A : ndarray) :
  nrows (affine (W_of model params l) A (b_of model params l)) = dimn ls l
  /\ ncols (affine (W_of model params l) A (b_of model params l)) = ncols A.
Proof.
  unfold affine, bcast, mdot, W_of, b_of; cbn [nrows ncols tabulate].
  fold ls. rewrite bdim_same, bdim_one_r. split; reflexivity.
Qed.

Lemma shape_fwd_A (l : nat) :
  nrows (fwd_A model params X l) = dimn ls l
  /\ ncols (fwd_A model params X l) = ncols X.
Proof.
  induction l as [|l [IH1 IH2]].
  - split; [exact HX | reflexivity].
  - cbn [fwd_A].
    destruct (shape_act_value (actn model (S l))
                (affine (W_of model params (S l)) (fwd_A model params X l)
                        (b_of model params (S l)))) as [-> ->].
    destruct (shape_affine (S l) (fwd_A model params X l)) as [-> ->].
    split; [reflexivity | exact IH2].
Qed.

Lemma fwd_A_succ (l : nat) :
  (1 <= l)%nat ->
  fwd_A model params X l = act_value (actn model l) (fwd_Z model params X l).
Proof.
  intros H. destruct l as [|l']; [lia|].
  unfold fwd_Z. cbn [fwd_A]. replace (S l' - 1)%nat with l' by lia. reflexivity.
Qed.

Lemma cache_A_succ (k : nat) :
  cache_A model params X (S k)
  = cache_A model params X k ++ [fwd_A model params X (S k)].
Proof. unfold cache_A. rewrite (seq_S (S k) 0), map_app. reflexivity. Qed.

Lemma cache_Z_succ (k : nat) :
  cache_Z model params X (S k)
  = cache_Z model params X k ++ [Some (fwd_Z model params X (S k))].
Proof. unfold cache_Z. rewrite seq_S, map_app. reflexivity. Qed.

Lemma nth_error_cache_A (k l : nat) :
  (l <= k)%nat ->
  nth_error (cache_A model params X k) l = Some (fwd_A model params X l).
Proof.
  intros H. unfold cache_A.
  rewrite nth_error_map, (nth_error_nth' _ O) by (rewrite length_seq; lia).
  rewrite seq_nth by lia. reflexivity.
Qed.

Lemma nth_error_cache_Z (k l : nat) :
  (1 <= l <= k)%nat ->
  nth_error (cache_Z model params X k) l = Some (Some (fwd_Z model params X l)).
Proof.
  intros H. unfold cache_Z. destruct l as [|l']; [lia|]. cbn [nth_error].
  rewrite nth_error_map, (nth_error_nth' _ O) by (rewrite length_seq; lia).
  rewrite seq_nth by lia. reflexivity.
Qed.

Lemma forward_body_ok (k : nat) :
  (S k < length ls)%nat ->
  forward_body model X (S k)
               (cache_A model params X k, cache_Z model params X k) params
  = (Ok (cache_A model params X (S k), cache_Z model params X (S k)), params).
Proof.
  intros Hk. unfold forward_body, bind, lift, ret.
  rewrite (getitem_nth _ no_layer) by (fold ls; lia).
  rewrite unpack_params_ok by (try assumption; fold ls; lia).
  cbn [getitem_pred]. unfold getitem at 1.
  rewrite nth_error_cache_A by lia.
  destruct (shape_fwd_A k) as [Ar Ac].
  rewrite np_dot_ok by (rewrite Ar; cbn [ncols W_of]; f_equal; lia).
  unfold np_add. rewrite np_bcast_ok
    by (cbn; fold ls; auto using compatible_same, compatible_one_r).
  rewrite subscript_ok by (apply Hact; lia).
  assert (EZ : bcast Rplus (mdot (W_of model params (S k))
                                 (fwd_A model params X k))
                     (b_of model params (S k))
               = fwd_Z model params X (S k)).
  { unfold fwd_Z, affine. replace (S k - 1)%nat with k by lia. reflexivity. }
  rewrite EZ, <- cache_Z_succ. unfold getitem at 1.
  rewrite nth_error_cache_Z by lia. cbn [as_array].
  fold (actn model (S k)).
  rewrite <- (fwd_A_succ (l := S k)) by lia.
  rewrite <- cache_A_succ. unfold getitem.
  rewrite nth_error_cache_A by lia.
  destruct (shape_fwd_A (S k)) as [Br Bc].
  rewrite shape_eqb_refl by assumption. reflexivity.
Qed.

Lemma propagate_forward_ok :
  (1 <= length ls)%nat ->
  _propagate_forward model X params
  = (Ok (cache_A model params X (length ls - 1), cache_Z model params X (length ls - 1)), params).
Proof.
  intros HL. unfold _propagate_forward. fold ls.
  destruct (for_each_inv
              (fun k (AZ : list ndarray * list (option ndarray)) s =>
                 AZ = (cache_A model params X k, cache_Z model params X k) /\ s = params)
              (range 1 (length ls)) (forward_body model X)
              ([X], [None]) params) as (a & s & Hrun & Ha & Hs).
  - split; reflexivity.
  - intros k x a t Hx [-> ->].
    apply nth_error_range_inv in Hx; destruct Hx as [Hk ->].
    eexists _, _; split; [apply forward_body_ok; lia | split; reflexivity].
  - rewrite Hrun, Ha, Hs, length_range. reflexivity.
Qed.

End Forward.

(** ** Sums *)

Lemma sum_list_app (u v : list R) : sum_list (u ++ v) = sum_list u + sum_list v.
Proof. induction u as [|x u IH]; simpl; [lra | rewrite IH; lra]. Qed.







Lemma get_mmap (f : R -> R) (M : ndarray) (i j : nat) :
  wf M -> (i < nrows M)%nat -> (j < ncols M)%nat ->
  get (mmap f M) i j = f (get M i j).
Proof.
  intros H Hi Hj. unfold get, mmap; cbn [ncols data].
  rewrite (nth_indep _ 0 (f 0)), map_nth; [reflexivity|].
  rewrite length_map. red in H. rewrite H. nia.
Qed.

Lemma bget_get (M : ndarray) (i j : nat) :
  (i < nrows M)%nat -> (j < ncols M)%nat -> bget M i j = get M i j.
Proof.
  intros Hi Hj. unfold bget.
  destruct (Nat.eqb_spec (nrows M) 1), (Nat.eqb_spec (ncols M) 1);
    f_equal; lia.
Qed.

Lemma get_affine (W A b : ndarray) (i j : nat) :
  nrows b = nrows W -> ncols b = 1%nat ->
  (i < nrows W)%nat -> (j < ncols A)%nat ->
  get (affine W A b) i j
  = big_sum (ncols W) (fun k => get W i k * get A k j) + get b i 0.
Proof.
  intros Hr Hc Hi Hj. unfold affine, bcast.
  cbn [nrows ncols mdot tabulate]. rewrite Hr, Hc, bdim_same, bdim_one_r.
  rewrite get_tabulate by assumption. f_equal.
  - rewrite bget_get by assumption. apply get_mdot; assumption.
  - unfold bget. rewrite Hc, Hr. cbn [Nat.eqb].
    destruct (Nat.eqb_spec (nrows W) 1); f_equal; lia.
Qed.

Lemma bcast_same_shape (f : R -> R -> R) (M N : ndarray) :
  nrows N = nrows M -> ncols N = ncols M ->
  bcast f M N
  = tabulate (nrows M) (ncols M) (fun i j => f (bget M i j) (bget N i j)).
Proof. intros H1 H2. unfold bcast. rewrite H1, H2, !bdim_same. reflexivity. Qed.

Lemma get_bcast_same (f : R -> R -> R) (M N : ndarray) (i j : nat) :
  nrows N = nrows M -> ncols N = ncols M ->
  (i < nrows M)%nat -> (j < ncols M)%nat ->
  get (bcast f M N) i j = f (get M i j) (get N i j).
Proof.
  intros H1 H2 Hi Hj. rewrite bcast_same_shape by assumption.
  rewrite get_tabulate by assumption.
  rewrite !bget_get by lia. reflexivity.
Qed.


(** ** The cost *)

Lemma py_fdiv_ok (x : R) (m : nat) :
  (0 < m)%nat -> py_fdiv x m = Ok (x / INR m).
Proof.
  intros H. unfold py_fdiv. destruct (Nat.eqb_spec m 0); [lia | reflexivity].
Qed.

Ltac shapes :=
  unfold sigmoid, relu;
  cbn [nrows ncols mmap bcast mdot transpose tabulate np_sum_rows W_of b_of];
  repeat match goal with
         | H : nrows _ = _ |- _ => rewrite H
         | H : ncols _ = _ |- _ => rewrite H
         end;
  rewrite ?bdim_same, ?bdim_one_r, ?bdim_one_l;
  auto using compatible_same, compatible_one_r, compatible_one_l.



Section Cost.

Variable model : NnModel.
Variable lambd : R.
Variable params : vec.
Variables AL Y : ndarray.

#[local] Abbreviation ls := (layers model).
#[local] Abbreviation m := (ncols AL).

Hypothesis Hc : compiled model.
Hypothesis Hp : length params = total_len ls.
Hypothesis HY1 : nrows Y = 1%nat.
Hypothesis HY2 : ncols Y = ncols AL.
Hypothesis Hm : (0 < ncols AL)%nat.

Lemma cost_body_ok (l : nat) (J : R) :
  (1 <= l < length ls)%nat ->
  cost_body model lambd m l J params
  = (Ok (J + penalty_term model lambd params m l), params).
Proof using Hc Hp Hm.
  clear HY1 HY2. intros Hl. unfold cost_body, bind, lift, ret.
  rewrite unpack_params_ok by assumption.
  rewrite py_fdiv_ok by lia. reflexivity.
Qed.

Lemma compute_cost_ok :
  _compute_cost model lambd AL Y params
  = (Ok (1 / INR m * np_sum (loss_matrix AL Y)
         + sum_list (map (penalty_term model lambd params m)
                         (range 1 (length ls)))), params).
Proof using Hc Hp HY1 HY2 Hm.
  unfold _compute_cost, bind, lift. unfold np_multiply, np_add.
  rewrite np_bcast_ok by shapes.
  rewrite np_bcast_ok by shapes.
  rewrite np_bcast_ok by shapes.
  rewrite py_fdiv_ok by exact Hm.
  fold (loss_matrix AL Y).
  set (J0 := 1 / INR m * np_sum (loss_matrix AL Y)).
  destruct (for_each_inv
              (fun k J s =>
                 J = J0 + sum_list (map (penalty_term model lambd params m)
                                        (seq 1 k))
                 /\ s = params)
              (range 1 (length ls)) (cost_body model lambd m) J0 params)
    as (a & s & Hrun & Ha & Hs).
  - split; [simpl; lra | reflexivity].
  - intros k x J t Hx [-> ->].
    apply nth_error_range_inv in Hx; destruct Hx as [Hk ->].
    eexists _, _; split; [apply cost_body_ok; lia|].
    split; [|reflexivity].
    rewrite seq_S, map_app, sum_list_app. simpl. lra.
  - rewrite Hrun, Ha, Hs, length_range. reflexivity.
Qed.


End Cost.

(** ** The backward pass *)

Lemma act_backward_ok (t : act_tuple) (dA Z : ndarray) :
  nrows Z = nrows dA -> ncols Z = ncols dA ->
  act_backward t dA Z = Ok (backward_rule t dA Z).
Proof.
  intros H1 H2. destruct t; cbn [act_backward backward_rule].
  - unfold relu_backward, np_multiply. apply np_bcast_ok; shapes.
  - unfold sigmoid_backward, np_multiply.
    rewrite np_bcast_ok by shapes. cbn [rbind].
    apply np_bcast_ok; shapes.
Qed.

Lemma shape_backward_rule (t : act_tuple) (dA Z : ndarray) :
  nrows Z = nrows dA -> ncols Z = ncols dA ->
  nrows (backward_rule t dA Z) = nrows dA
  /\ ncols (backward_rule t dA Z) = ncols dA.
Proof.
  intros H1 H2. destruct t; cbn [backward_rule]; shapes.
Qed.

Lemma nth_error_reversed_range (n k : nat) :
  (k < n)%nat -> nth_error (reversed (range 1 (S n))) k = Some (n - k)%nat.
Proof.
  intros H. unfold reversed, range. replace (S n - 1)%nat with n by lia.
  rewrite (nth_error_nth' _ O) by (rewrite length_rev, length_seq; lia).
  rewrite rev_nth by (rewrite length_seq; lia).
  rewrite length_seq, seq_nth by lia. f_equal. lia.
Qed.

Section Backward.

Variable model : NnModel.
Variable lambd : R.
Variable params : vec.
Variables X Y : ndarray.

#[local] Abbreviation ls := (layers model).
#[local] Abbreviation m := (ncols X).
#[local] Abbreviation L := (top model).

Hypothesis Hc : compiled model.
Hypothesis Hp : length params = total_len ls.
Hypothesis HL : (1 <= length ls)%nat.
Hypothesis HX : nrows X = dimn ls 0.
Hypothesis Hact : forall l, (1 <= l < length ls)%nat ->
                            activation (nth l ls no_layer) <> None.
Hypothesis HY1 : nrows Y = 1%nat.
Hypothesis HY2 : ncols Y = ncols X.
Hypothesis Hm : (0 < ncols X)%nat.

#[local] Abbreviation fA := (fwd_A model params X).
#[local] Abbreviation fZ := (fwd_Z model params X).
#[local] Abbreviation dA := (bp_dA model params X Y).

Lemma shape_fwd_Z (l : nat) : nrows (fZ l) = dimn ls l /\ ncols (fZ l) = m.
Proof.
  unfold fwd_Z.
  destruct (shape_affine model params l (fA (l - 1))) as [-> ->].
  destruct (shape_fwd_A model params X HX (l - 1)) as [_ ->].
  split; reflexivity.
Qed.

Lemma shape_seed : nrows (seed Y (fA L)) = dimn ls L /\ ncols (seed Y (fA L)) = m.
Proof.
  destruct (shape_fwd_A model params X HX L) as [Ar Ac].
  unfold seed. shapes.
Qed.

Lemma shape_bp_dA (k : nat) :
  (k <= L)%nat -> nrows (dA k) = dimn ls (L - k) /\ ncols (dA k) = m.
Proof.
  induction k as [|k IH]; intros Hk.
  - rewrite Nat.sub_0_r. apply shape_seed.
  - destruct IH as [Dr Dc]; [lia|].
    destruct (shape_fwd_Z (L - k)) as [Zr Zc].
    destruct (shape_backward_rule (actn model (L - k)) (dA k) (fZ (L - k)))
      as [Br Bc]; [congruence | congruence |].
    cbn [bp_dA]. cbn [mdot tabulate nrows ncols transpose W_of].
    fold ls. rewrite Bc, Dc. split; [f_equal; lia | reflexivity].
Qed.

Lemma shape_dZ_at (l : nat) :
  (l <= L)%nat ->
  nrows (dZ_at model params X Y l) = dimn ls l
  /\ ncols (dZ_at model params X Y l) = ncols X.
Proof.
  intros Hl.
  destruct (shape_bp_dA (k := L - l)) as [Dr Dc]; [lia|].
  replace (L - (L - l))%nat with l in Dr by lia.
  destruct (shape_fwd_Z l) as [Zr Zc].
  destruct (shape_backward_rule (actn model l) (dA (L - l)) (fZ l))
    as [Br Bc]; [congruence | congruence |].
  unfold dZ_at, dA_at. split; congruence.
Qed.

Lemma linear_backward_ok (l : nat) :
  (1 <= l <= L)%nat ->
  _linear_backward lambd (dZ_at model params X Y l) (fA (l - 1))
                   (W_of model params l) (b_of model params l)
  = Ok (dW_at model lambd params X Y l, db_at model params X Y l,
        dA_at model params X Y (l - 1)).
Proof.
  intros Hl.
  destruct (shape_fwd_A model params X HX (l - 1)) as [Ar Ac].
  destruct (shape_dZ_at (l := l)) as [Br Bc]; [lia|].
  unfold _linear_backward. rewrite Ac, !py_fdiv_ok by exact Hm.
  cbn [rbind].
  rewrite np_dot_ok by (cbn [transpose tabulate nrows]; congruence).
  cbn [rbind]. unfold np_iadd, np_add.
  rewrite np_bcast_ok by shapes. cbn [rbind].
  unfold same_shape. rewrite shape_eqb_refl by shapes.
  rewrite np_dot_ok by (cbn [transpose tabulate nrows ncols W_of]; congruence).
  cbn [rbind]. unfold dW_at, db_at, batch. do 2 f_equal.
  unfold dA_at. replace (L - (l - 1))%nat with (S (L - l)) by lia.
  cbn [bp_dA]. replace (L - (L - l))%nat with l by lia. reflexivity.
Qed.

Lemma shape_grad_blocks (l : nat) :
  (1 <= l <= L)%nat ->
  (wf (dW_at model lambd params X Y l)
   /\ nrows (dW_at model lambd params X Y l) = dimn ls l
   /\ ncols (dW_at model lambd params X Y l) = dimn ls (l - 1))
  /\ (wf (db_at model params X Y l)
      /\ nrows (db_at model params X Y l) = dimn ls l
      /\ ncols (db_at model params X Y l) = 1%nat).
Proof.
  intros Hl. destruct (shape_dZ_at (l := l)) as [Br Bc]; [lia|].
  destruct (shape_fwd_A model params X HX (l - 1)) as [Ar Ac].
  unfold dW_at, db_at, np_sum_rows.
  repeat split; auto with nn; shapes.
Qed.

Lemma backward_body_ok (k : nat) (st : ndarray * vec) :
  (k < L)%nat -> backward_inv model lambd params X Y k st params ->
  exists st', backward_body model lambd (cache_A model params X L)
                (cache_Z model params X L) (L - k) st params
              = (Ok st', params)
              /\ backward_inv model lambd params X Y (S k) st' params.
Proof.
  intros Hk (HdA & _ & Hlen & Hdone). destruct st as [d g].
  cbn [fst snd] in *. subst d.
  assert (HLk : (1 <= L - k < length (layers model))%nat)
    by (unfold top in *; lia).
  assert (Ek : dA k = dA_at model params X Y (L - k)).
  { unfold dA_at. f_equal. lia. }
  remember (L - k)%nat as l eqn:El.
  destruct (shape_bp_dA (k := k)) as [Dr Dc]; [lia|]. rewrite <- El in Dr.
  destruct (shape_fwd_Z l) as [Zr Zc].
  destruct (shape_fwd_A model params X HX l) as [Ar Ac].
  destruct (shape_dZ_at (l := l)) as [Br Bc]; [lia|].
  destruct (shape_grad_blocks (l := l)) as [(W1 & W2 & W3) (B1 & B2 & B3)];
    [lia|].
  exists (dA_at model params X Y (l - 1),
          packed ls l (dW_at model lambd params X Y l)
                 (db_at model params X Y l) g).
  split.
  - unfold backward_body, bind, lift, ret.
    rewrite (getitem_nth _ no_layer) by lia.
    rewrite unpack_params_ok by assumption.
    rewrite subscript_ok by (apply Hact; lia).
    unfold getitem at 1. rewrite nth_error_cache_Z by lia. cbn [as_array].
    fold (actn model l).
    rewrite act_backward_ok by congruence.
    unfold getitem at 1. rewrite nth_error_cache_A by lia.
    rewrite Ek. fold (dZ_at model params X Y l).
    unfold same_shape. rewrite shape_eqb_refl by congruence.
    cbn [py_assert ret].
    destruct l as [|l']; [lia|]. cbn [getitem_pred]. unfold getitem at 1.
    rewrite nth_error_cache_A by lia.
    replace l' with (S l' - 1)%nat at 2 by lia.
    rewrite linear_backward_ok by lia.
    unfold on_buffer.
    rewrite pack_params_ok by assumption. reflexivity.
  - unfold backward_inv; cbn [fst snd]. repeat split.
    + unfold dA_at. f_equal. lia.
    + rewrite length_packed by assumption. exact Hlen.
    + destruct (Nat.eq_dec l0 l) as [->|Hne].
      * apply W_of_packed; assumption.
      * destruct (@packed_other model l (dW_at model lambd params X Y l)
                    (db_at model params X Y l) g
                    Hlen HLk W1 B1 W2 W3 B2 B3 l0) as [E _];
          [unfold top in *; lia | exact Hne |].
        rewrite E. apply Hdone. lia.
    + destruct (Nat.eq_dec l0 l) as [->|Hne].
      * apply b_of_packed; assumption.
      * destruct (@packed_other model l (dW_at model lambd params X Y l)
                    (db_at model params X Y l) g
                    Hlen HLk W1 B1 W2 W3 B2 B3 l0) as [_ E];
          [unfold top in *; lia | exact Hne |].
        rewrite E. apply Hdone. lia.
Qed.

Lemma propagate_backward_ok :
  exists grad,
    _propagate_backward model lambd (cache_A model params X L)
                        (cache_Z model params X L) Y params
    = (Ok grad, params)
    /\ length grad = length params
    /\ forall l, (1 <= l <= L)%nat ->
                 W_of model grad l = dW_at model lambd params X Y l
                 /\ b_of model grad l = db_at model params X Y l.
Proof.
  unfold _propagate_backward, bind, lift, get_state, ret.
  unfold getitem_last, getitem, cache_A at 1 2.
  rewrite length_map, length_seq.
  replace (S L - 1)%nat with L by lia.
  fold (cache_A model params X L). rewrite nth_error_cache_A by lia.
  destruct (shape_fwd_A model params X HX L) as [Ar Ac].
  unfold np_divide, np_add.
  rewrite np_bcast_ok by shapes.
  rewrite np_bcast_ok by shapes.
  rewrite np_bcast_ok by shapes.
  fold (seed Y (fA L)).
  destruct (for_each_inv (backward_inv model lambd params X Y)
              (reversed (range 1 (length (layers model))))
              (backward_body model lambd (cache_A model params X L)
                             (cache_Z model params X L))
              (seed Y (fA L), repeat 0 (length params)) params)
    as (st & s & Hrun & Hinv).
  - unfold backward_inv; cbn [fst snd]. repeat split.
    + rewrite repeat_length. exact Hp.
    + lia.
    + lia.
  - intros k x st t Hx Hinv.
    assert (Hs : t = params) by (destruct Hinv as (_ & E & _); exact E).
    subst t.
    assert (Hk : (k < L)%nat /\ x = (L - k)%nat).
    { assert (E : length (layers model) = S L) by (unfold top; lia).
      rewrite E in Hx.
      assert (Hk : (k < L)%nat).
      { assert (Hn : nth_error (reversed (range 1 (S L))) k <> None)
          by congruence.
        apply nth_error_Some in Hn. unfold reversed, range in Hn.
        rewrite length_rev, length_seq in Hn. lia. }
      rewrite nth_error_reversed_range in Hx by exact Hk.
      split; [exact Hk | congruence]. }
    destruct Hk as [Hk ->].
    destruct (backward_body_ok Hk Hinv) as (st' & E & Hinv').
    exists st', params. split; assumption.
  - rewrite Hrun. destruct st as [d g].
    destruct Hinv as (_ & -> & Hlen & Hdone). cbn [fst snd] in *.
    exists g. split; [reflexivity|]. split; [congruence|].
    intros l Hl. apply Hdone.
    unfold reversed, range. rewrite length_rev, length_seq.
    unfold top in *. lia.
Qed.

End Backward.

(** ** Cost and gradient together *)

Section CostAndGradient.

Variable model : NnModel.
Variable lambd : R.
Variable params : vec.
Variables X Y : ndarray.

#[local] Abbreviation ls := (layers model).
#[local] Abbreviation L := (top model).
#[local] Abbreviation AL := (fwd_A model params X (top model)).

Hypothesis Hc : compiled model.
Hypothesis Hp : length params = total_len ls.
Hypothesis HL : (1 <= length ls)%nat.
Hypothesis HX : nrows X = dimn ls 0.
Hypothesis Hact : forall l, (1 <= l < length ls)%nat ->
                            activation (nth l ls no_layer) <> None.
Hypothesis HY1 : nrows Y = 1%nat.
Hypothesis HY2 : ncols Y = ncols X.
Hypothesis Hm : (0 < ncols X)%nat.

Lemma cost_ok :
  exists grad,
    _cost model lambd X Y params = (Ok (cost_value model lambd params X Y, grad), params)
    /\ length grad = length params
    /\ forall l, (1 <= l <= L)%nat ->
                 W_of model grad l = dW_at model lambd params X Y l
                 /\ b_of model grad l = db_at model params X Y l.
Proof.
  destruct (@propagate_backward_ok model lambd params X Y
              Hc Hp HL HX Hact HY1 HY2 Hm)
    as (grad & Hb & Hlen & Hblocks).
  destruct (shape_fwd_A model params X HX L) as [Ar Ac].
  exists grad. split; [|split; assumption].
  unfold _cost, bind, lift, ret.
  rewrite propagate_forward_ok by assumption.
  unfold getitem_last, getitem, cache_A at 1 2.
  rewrite length_map, length_seq.
  replace (S (length ls - 1) - 1)%nat with L by (unfold top; lia).
  fold (cache_A model params X (length ls - 1)).
  rewrite nth_error_cache_A by (unfold top; lia).
  rewrite compute_cost_ok by (try assumption; congruence).
  change (length ls - 1)%nat with L. rewrite Hb.
  unfold cost_value, batch. rewrite Ac. reflexivity.
Qed.

End CostAndGradient.

(** With an empty batch there is no cost: [1. / m] raises. *)
Lemma cost_empty_batch (model : NnModel) (lambd : R) (params : vec)
  (X Y : ndarray) :
  compiled model ->
  length params = total_len (layers model) ->
  (1 <= length (layers model))%nat ->
  nrows X = dimn (layers model) 0 ->
  (forall l, (1 <= l < length (layers model))%nat ->
             activation (nth l (layers model) no_layer) <> None) ->
  nrows Y = 1%nat -> ncols Y = ncols X -> ncols X = 0%nat ->
  _cost model lambd X Y params = (Err ZeroDivisionError, params).
Proof.
  intros Hc Hp HL HX Hact HY1 HY2 Hm.
  destruct (shape_fwd_A model params X HX (top model)) as [Ar Ac].
  unfold _cost, bind, lift, ret.
  rewrite propagate_forward_ok by assumption.
  unfold getitem_last, getitem, cache_A at 1 2.
  rewrite length_map, length_seq.
  replace (S (length (layers model) - 1) - 1)%nat with (top model)
    by (unfold top; lia).
  fold (cache_A model params X (length (layers model) - 1)).
  rewrite nth_error_cache_A by (unfold top; lia).
  unfold _compute_cost, bind, lift, np_multiply, np_add.
  rewrite np_bcast_ok by shapes.
  rewrite np_bcast_ok by shapes.
  rewrite np_bcast_ok by shapes.
  rewrite Ac, Hm. reflexivity.
Qed.

(** ** The cost with infinities *)











Section CostExt.

Variable model : NnModel.
Variable lambd : R.
Variable params : vec.
Variables X Y : ndarray.

#[local] Abbreviation ls := (layers model).
#[local] Abbreviation AL := (fwd_A model params X (top model)).

Hypothesis Hc : compiled model.
Hypothesis Hp : length params = total_len ls.
Hypothesis HL : (1 <= length ls)%nat.
Hypothesis HX : nrows X = dimn ls 0.
Hypothesis Hact : forall l, (1 <= l < length ls)%nat ->
                            activation (nth l ls no_layer) <> None.
Hypothesis HY1 : nrows Y = 1%nat.
Hypothesis HY2 : ncols Y = ncols X.
Hypothesis Hm : (0 < ncols X)%nat.



End CostExt.

(** ** The optimizer *)

Lemma logged_succ (k : nat) :
  logged (S k) = if (k mod 100 =? 0)%nat then logged k ++ [k] else logged k.
Proof.
  unfold logged. rewrite seq_S, filter_app. cbn [filter Nat.add].
  destruct (k mod 100 =? 0)%nat; [reflexivity | apply app_nil_r].
Qed.

Lemma np_bcast1_same_length (f : R -> R -> R) (u v : vec) :
  length u = length v -> np_bcast1 f u v = Ok (zip_with f u v).
Proof.
  intros H. unfold np_bcast1. rewrite H, Nat.eqb_refl. reflexivity.
Qed.

Lemma length_zip_with (f : R -> R -> R) (u v : vec) :
  length u = length v -> length (zip_with f u v) = length u.
Proof.
  revert v; induction u as [|x u IH]; intros [|y v] H; simpl in *;
    try reflexivity; try discriminate.
  f_equal. apply IH. congruence.
Qed.

Section Descent.

Variable self : GradDescentOptimizer.
Variable cost_fn : vec -> res (R * vec).

(** [ps i], [cs i] and [gs i] are the parameters before step [i], and the
    cost and the gradient there. *)
Variable ps : nat -> vec.
Variable cs : nat -> R.
Variable gs : nat -> vec.

Hypothesis Hcall : forall i, (i < iters self)%nat ->
                             cost_fn (ps i) = Ok (cs i, gs i).
Hypothesis Hlen : forall i, (i < iters self)%nat ->
                            length (gs i) = length (ps i).
Hypothesis Hstep : forall i, (i < iters self)%nat ->
                             ps (S i) = descent_step (alpha self) (ps i) (gs i).

Lemma debug_lines_succ (k : nat) :
  debug_lines self cs (S k)
  = if (k mod 100 =? 0)%nat
    then debug_lines self cs k ++ (if debug self then [(k, cs k)] else [])
    else debug_lines self cs k.
Proof.
  unfold debug_lines. rewrite logged_succ.
  destruct (k mod 100 =? 0)%nat, (debug self);
    rewrite ?map_app; reflexivity.
Qed.

Lemma optimize_body_ok (k : nat) (out : stdout) :
  (k < iters self)%nat ->
  optimize_body self cost_fn k (ps k, map cs (logged k)) (out ++ debug_lines self cs k)
  = (Ok (ps (S k), map cs (logged (S k))), out ++ debug_lines self cs (S k)).
Proof.
  intros Hk. unfold optimize_body, bind, lift.
  rewrite (Hcall Hk).
  rewrite np_bcast1_same_length by (rewrite length_map; symmetry; auto).
  fold (descent_step (alpha self) (ps k) (gs k)). rewrite <- (Hstep Hk).
  rewrite logged_succ, debug_lines_succ.
  destruct (k mod 100 =? 0)%nat; [|reflexivity].
  rewrite map_app. cbn [map].
  destruct (debug self); unfold print, ret.
  - rewrite app_assoc. reflexivity.
  - rewrite app_nil_r. reflexivity.
Qed.

Lemma optimize_ok (out : stdout) :
  optimize self cost_fn (ps 0) out
  = (Ok (ps (iters self), map cs (logged (iters self))),
     out ++ debug_lines self cs (iters self)).
Proof.
  unfold optimize.
  destruct (for_each_inv
              (fun k (st : vec * list R) o =>
                 st = (ps k, map cs (logged k)) /\ o = out ++ debug_lines self cs k)
              (range 0 (iters self)) (optimize_body self cost_fn)
              (ps 0, []) out) as (st & o & Hrun & Hst & Ho).
  - split; [reflexivity|]. unfold debug_lines, logged. cbn [seq filter map].
    destruct (debug self); rewrite app_nil_r; reflexivity.
  - intros k x st t Hx [-> ->].
    apply nth_error_range_inv in Hx; destruct Hx as [Hk ->].
    eexists _, _; split; [apply optimize_body_ok; lia | split; reflexivity].
  - transitivity (Ok st, o); [exact Hrun|].
    rewrite Hst, Ho, length_range, Nat.sub_0_r. reflexivity.
Qed.

End Descent.

(** * The claims *)

(** ** Activation registry *)

Lemma indicator_agree (z : R) : z <> 0 -> indicator_pos z = indicator_nonneg z.
Proof.
  intros H. unfold indicator_pos, indicator_nonneg.
  destruct (Rlt_dec 0 z), (Rle_dec 0 z); try reflexivity; lra.
Qed.

(** Away from zero the two relu rules agree: [relu_backward(dA, Z)] is
    [dA ⊙ relu_derv(Z)] whenever no item of [Z] is 0. *)
Lemma relu_backward_derv_nonzero (dA Z : ndarray) :
  (forall z, In z (data Z) -> z <> 0) ->
  relu_backward dA Z = np_multiply dA (relu_derv Z).
Proof.
  intros H. unfold relu_backward, relu_derv. f_equal.
  unfold mmap. f_equal. apply map_ext_in. intros z Hz.
  apply indicator_agree. apply H. exact Hz.
Qed.

(** C7, at the boundary.  For [dA = [[1.]]] and [Z = [[0.]]] the code's
    [relu_backward] returns [[0.]], because it tests [Z > 0], while
    [dA ⊙ relu_derv(Z)] is [[1.]], because [relu_derv] tests [z >= 0]: at a
    zero of [Z] the backward rule does not return the entry of [dA]. *)
Theorem relu_backward_at_zero :
  relu_backward (mk_nd 1 1 [1]) (mk_nd 1 1 [0]) = Ok (mk_nd 1 1 [0])
  /\ relu_derv (mk_nd 1 1 [0]) = mk_nd 1 1 [1]
  /\ np_multiply (mk_nd 1 1 [1]) (relu_derv (mk_nd 1 1 [0])) = Ok (mk_nd 1 1 [1]).
Proof.
  assert (E0 : indicator_pos 0 = 0).
  { unfold indicator_pos. destruct (Rlt_dec 0 0); [lra | reflexivity]. }
  assert (E1 : indicator_nonneg 0 = 1).
  { unfold indicator_nonneg. destruct (Rle_dec 0 0); [reflexivity | lra]. }
  unfold relu_backward, relu_derv, np_multiply, np_bcast, bcast, tabulate, mmap,
    bget, get.
  cbn. rewrite E0, E1. repeat split; do 3 f_equal; lra.
Qed.

(** ** Layer model *)

Lemma add_layers (units : nat) (act : string) (input_dim : nat) (m : NnModel) :
  layers (snd (add units act input_dim m))
  = layers m
    ++ (if negb (input_dim =? 0)%nat && is_empty (layers m)
        then [mk_layer input_dim None] else [])
    ++ match activations act with
       | Ok t => [mk_layer units (Some t)]
       | Err _ => []
       end.
Proof.
  unfold add, bind, get_state, lift, append_layer, ret.
  destruct (negb (input_dim =? 0)%nat && is_empty (layers m));
    destruct (activations act); cbn [snd layers];
    rewrite ?app_nil_r, <- ?app_assoc; reflexivity.
Qed.

Lemma add_keeps_head (units : nat) (act : string) (input_dim : nat)
  (m : NnModel) (ly : NnLayer) :
  nth_error (layers m) 0 = Some ly ->
  nth_error (layers (snd (add units act input_dim m))) 0 = Some ly.
Proof.
  intros H. rewrite add_layers.
  destruct (layers m) as [|x rest]; [discriminate|]. exact H.
Qed.

Lemma run_adds_keeps_head (calls : list add_call) (m : NnModel) (ly : NnLayer) :
  nth_error (layers m) 0 = Some ly ->
  nth_error (layers (run_adds calls m)) 0 = Some ly.
Proof.
  revert m; induction calls as [|[[u a] i] calls IH]; intros m H.
  - exact H.
  - cbn [run_adds fold_left]. apply IH. apply add_keeps_head. exact H.
Qed.

(** C9 as stated fails: one [add] without [input_dim] on a new model makes
    the relu layer itself layer 0. *)
Lemma add_default_input_dim_layer0 :
  nth_error (layers (run_adds [(4%nat, "relu"%string, 0%nat)] new_model)) 0
  = Some (mk_layer 4 (Some ActRelu))
  /\ activation (mk_layer 4 (Some ActRelu)) <> None.
Proof. split; [reflexivity | discriminate]. Qed.

(** C9, amended.  When the first [add] call on a new model passes a nonzero
    [input_dim], layer 0 is the input layer of that size with no activation,
    and it stays so whatever calls follow. *)
Theorem input_layer_has_no_activation
  (units : nat) (act : string) (input_dim : nat) (calls : list add_call) :
  input_dim <> 0%nat ->
  nth_error (layers (run_adds ((units, act, input_dim) :: calls) new_model)) 0
  = Some (mk_layer input_dim None).
Proof.
  intros H. cbn [run_adds fold_left]. apply run_adds_keeps_head.
  rewrite add_layers. cbn [new_model layers is_empty app].
  destruct (Nat.eqb_spec input_dim 0); [contradiction | reflexivity].
Qed.

Lemma input_layer_has_no_activation_witness :
  nth_error
    (layers (run_adds [(16%nat, "relu"%string, 3%nat);
                       (1%nat, "sigmoid"%string, 0%nat)] new_model)) 0
  = Some (mk_layer 3 None).
Proof.
  apply (input_layer_has_no_activation 16 "relu" (input_dim := 3)
           [(1%nat, "sigmoid"%string, 0%nat)]).
  discriminate.
Defined.

(** C10.  [add] puts an input layer in front only when [input_dim] is not 0
    and the model has no layer yet; then it appends the transformation layer
    (nothing when the activation key is unknown).  So with [input_dim = 0] a
    new model gets the transformation layer alone, and on a model that has a
    layer [input_dim] is ignored. *)
Theorem add_input_layer_guard
  (units : nat) (act : string) (input_dim : nat) :
  (forall m,
      layers (snd (add units act input_dim m))
      = layers m
        ++ (if negb (input_dim =? 0)%nat && is_empty (layers m)
            then [mk_layer input_dim None] else [])
        ++ match activations act with
           | Ok t => [mk_layer units (Some t)]
           | Err _ => []
           end)
  /\ (forall os,
         layers (snd (add units act 0 (mk_model [] os)))
         = match activations act with
           | Ok t => [mk_layer units (Some t)]
           | Err _ => []
           end)
  /\ (forall ly rest os,
         add units act input_dim (mk_model (ly :: rest) os)
         = add units act 0 (mk_model (ly :: rest) os)).
Proof.
  split; [|split].
  - intros m. apply add_layers.
  - intros os. rewrite add_layers. reflexivity.
  - intros ly rest os. unfold add, bind, get_state. cbn [layers is_empty].
    rewrite andb_false_r. reflexivity.
Qed.

(** C4.  [compile] keeps the layers and builds the offset table in which
    layer [l >= 1] has the weight range [[off l, off l + dim[l]*dim[l-1])]
    followed at once by the bias range of length [dim[l]], where [off l] is
    the number of parameters of the layers before [l]; listing the ranges in
    table order enumerates [0, 1, ..., total - 1], each index once, with
    [total = Σ_{l >= 1} (dim[l]*dim[l-1] + dim[l])]. *)
Theorem compile_offset_table (m : NnModel) :
  let ls := layers m in
  let m' := snd (compile m) in
  let total :=
    list_sum (map (fun l => dimn ls l * dimn ls (l - 1) + dimn ls l)%nat
                  (range 1 (length ls))) in
  fst (compile m) = Ok tt
  /\ layers m' = ls
  /\ layer_offsets m'
     = OffInit
       :: map (fun l =>
                 let w1 := (off ls l + dimn ls l * dimn ls (l - 1))%nat in
                 OffLayer (off ls l, w1) (w1, w1 + dimn ls l)%nat)
              (range 1 (length ls))
  /\ (forall l, off ls (S (S l)) = (off ls (S l) + dimn ls (S l) * dimn ls l
                                  + dimn ls (S l))%nat)
  /\ off ls 1 = 0%nat
  /\ flat_map entry_indices (layer_offsets m') = seq 0 total
  /\ param_len ls = Ok total.
Proof.
  intros ls m' total. unfold m'. rewrite compile_ok. cbn [fst snd layers layer_offsets].
  fold ls.
  assert (Etot : total_len ls = total).
  { unfold total_len, total, range. destruct (length ls) as [|n]; [reflexivity|].
    rewrite total_len_sum. do 3 f_equal. lia. }
  repeat split.
  - unfold table. f_equal. apply map_ext. intros l.
    unfold table_entry, b_range, w_range. cbn [fst snd].
    rewrite (Nat.mul_comm (dimn ls (l - 1))). reflexivity.
  - intros l. cbn [off block]. lia.
  - rewrite table_indices, Etot. reflexivity.
  - rewrite param_len_ok, Etot. reflexivity.
Qed.

(** C5.  On a compiled model and a layer [l >= 1]: packing [(W, b)] of the
    layer's shapes into the zero vector of full length and unpacking layer [l]
    again gives back [(W, b)]; with any other shape of [W] or [b],
    [pack_params] raises [AssertionError] and stores nothing; and
    [unpack_params] leaves the buffer it reads as it was. *)
Theorem pack_unpack_roundtrip (model : NnModel) (l : nat) (W b : ndarray) :
  compiled model ->
  (1 <= l < length (layers model))%nat ->
  wf W -> wf b ->
  let ls := layers model in
  let zeros := repeat 0 (total_len ls) in
  param_len ls = Ok (total_len ls)
  /\ (shape_eqb W (dimn ls l) (dimn ls (l - 1)) && shape_eqb b (dimn ls l) 1 = true ->
      exists p', pack_params model l W b zeros = (Ok tt, p')
                 /\ unpack_params model l p' = (Ok (W, b), p'))
  /\ (shape_eqb W (dimn ls l) (dimn ls (l - 1)) && shape_eqb b (dimn ls l) 1 = false ->
      forall p, pack_params model l W b p = (Err AssertionError, p))
  /\ (forall l' p, snd (unpack_params model l' p) = p).
Proof.
  intros Hc Hl HW Hb ls zeros. subst ls.
  split; [apply param_len_ok|]. split; [|split].
  - intros Hs. apply andb_prop in Hs. destruct Hs as [Hs1 Hs2].
    unfold shape_eqb in Hs1, Hs2.
    apply andb_prop in Hs1, Hs2. destruct Hs1 as [W1 W2], Hs2 as [B1 B2].
    apply Nat.eqb_eq in W1, W2, B1, B2.
    assert (Hz : length zeros = total_len (layers model))
      by apply repeat_length.
    exists (packed (layers model) l W b zeros). split.
    + apply pack_params_ok; assumption.
    + rewrite unpack_params_ok;
        [| assumption | rewrite length_packed; assumption | assumption].
      rewrite W_of_packed, b_of_packed by assumption. reflexivity.
  - intros Hs p. unfold pack_params, bind, lift.
    rewrite (getitem_nth _ no_layer) by lia.
    rewrite (getitem_pred_nth _ no_layer) by lia.
    fold (dimn (layers model) l) (dimn (layers model) (l - 1)).
    destruct (shape_eqb W (dimn (layers model) l) (dimn (layers model) (l - 1)));
      [|reflexivity].
    cbn [py_assert ret]. cbn [andb] in Hs. rewrite Hs. reflexivity.
  - intros l' p. apply unpack_params_read_only.
Qed.

Lemma pack_unpack_roundtrip_witness :
  exists p',
    pack_params tiny_model 1 (mk_nd 1 2 [3; 4]) (mk_nd 1 1 [5]) (repeat 0 3)
    = (Ok tt, p')
    /\ unpack_params tiny_model 1 p' = (Ok (mk_nd 1 2 [3; 4], mk_nd 1 1 [5]), p').
Proof.
  refine (proj1 (proj2 (@pack_unpack_roundtrip tiny_model 1 (mk_nd 1 2 [3; 4])
                          (mk_nd 1 1 [5]) _ _ _ _)) _).
  - reflexivity.
  - simpl; lia.
  - reflexivity.
  - reflexivity.
  - reflexivity.
Defined.

(** C6.  Let [ps], [cs], [gs] be the parameters, costs and gradients of a
    descent: [(cs i, gs i) = cost_fn (ps i)] and
    [ps (i+1) = ps i - α·gs i] for every [i < iters].  Then [optimize] started
    at [ps 0] makes all [iters] steps and returns [ps iters], whatever the
    costs are, together with the costs [cs i] of the steps [i < iters] with
    [i mod 100 = 0], in increasing order of [i]; with [debug] set it prints
    the same entries. *)
Theorem optimize_descent (self : GradDescentOptimizer)
  (cost_fn : vec -> res (R * vec))
  (ps : nat -> vec) (cs : nat -> R) (gs : nat -> vec) (out : stdout) :
  (forall i, (i < iters self)%nat -> cost_fn (ps i) = Ok (cs i, gs i)) ->
  (forall i, (i < iters self)%nat -> length (gs i) = length (ps i)) ->
  (forall i, (i < iters self)%nat ->
             ps (S i) = zip_with Rminus (ps i) (map (Rmult (alpha self)) (gs i))) ->
  let steps := filter (fun i => (i mod 100 =? 0)%nat) (seq O (iters self)) in
  optimize self cost_fn (ps O) out
  = (Ok (ps (iters self), map cs steps),
     out ++ (if debug self then map (fun i => (i, cs i)) steps else []))
  /\ (iters self <> 0%nat -> hd_error (map cs steps) = Some (cs O)).
Proof.
  intros Hcall Hlen Hstep steps. split.
  - apply (optimize_ok self cost_fn ps cs gs Hcall Hlen Hstep).
  - intros Hn. unfold steps. destruct (iters self) as [|n]; [contradiction|].
    reflexivity.
Qed.

Lemma optimize_descent_witness :
  optimize (mk_optimizer 1 true 2) (fun p => Ok (7, map (fun _ => 0) p)) [1; 2] []
  = (Ok ([1; 2], [7]), [(0%nat, 7)])
  /\ hd_error (map (fun _ : nat => 7) (logged 2)) = Some 7.
Proof.
  destruct (@optimize_descent (mk_optimizer 1 true 2)
              (fun p => Ok (7, map (fun _ => 0) p))
              (fun _ => [1; 2]) (fun _ => 7) (fun _ => [0; 0]) [])
    as [Hrun Hhead].
  - intros i _. reflexivity.
  - intros i _. reflexivity.
  - intros i _. simpl. repeat f_equal; lra.
  - split; [exact Hrun | apply Hhead; discriminate].
Defined.

(** ** Forward engine *)


(** C3.  On a compiled model, with [params] of full length and [X] of shape
    [(dim[0], m)], [_propagate_forward] returns caches [A] and [Z] with one
    entry per layer, [A[0] = X], [Z[0] = None] and, for every layer
    [l >= 1], [Z[l] = W_l·A[l-1] + b_l] for the [(W_l, b_l)] that
    [unpack_params] reads at layer [l] and [A[l] = activation[l].value(Z[l])],
    of shape [(dim[l], m)]; the parameter buffer is left as it was. *)
Theorem forward_pass (model : NnModel) (params : vec) (X : ndarray) :
  let ls := layers model in
  compiled model ->
  length params = total_len ls ->
  (1 <= length ls)%nat ->
  nrows X = dimn ls 0 ->
  (forall l, (1 <= l < length ls)%nat -> activation (nth l ls no_layer) <> None) ->
  exists A Z,
    _propagate_forward model X params = (Ok (A, Z), params)
    /\ length A = length ls /\ length Z = length ls
    /\ nth_error A 0 = Some X /\ nth_error Z 0 = Some None
    /\ forall l, (1 <= l < length ls)%nat ->
         exists W b A_prev Zl Al t,
           unpack_params model l params = (Ok (W, b), params)
           /\ activation (nth l ls no_layer) = Some t
           /\ nth_error A (l - 1) = Some A_prev
           /\ nth_error Z l = Some (Some Zl)
           /\ nth_error A l = Some Al
           /\ Zl = bcast Rplus (mdot W A_prev) b
           /\ (forall i j, (i < dimn ls l)%nat -> (j < ncols X)%nat ->
                 get Zl i j
                 = big_sum (dimn ls (l - 1)) (fun k => get W i k * get A_prev k j)
                   + get b i 0)
           /\ Al = act_value t Zl
           /\ nrows Al = dimn ls l /\ ncols Al = ncols X.
Proof.
  intros ls Hc Hp HL HX Hact. subst ls.
  exists (cache_A model params X (length (layers model) - 1)),
         (cache_Z model params X (length (layers model) - 1)).
  split; [apply propagate_forward_ok; assumption|].
  split; [unfold cache_A; rewrite length_map, length_seq; lia|].
  split; [unfold cache_Z; cbn [length]; rewrite length_map, length_seq; lia|].
  split; [reflexivity|]. split; [reflexivity|].
  intros l Hl.
  destruct (shape_fwd_A model params X HX l) as [Ar Ac].
  destruct (shape_fwd_A model params X HX (l - 1)) as [Pr Pc].
  exists (W_of model params l), (b_of model params l),
         (fwd_A model params X (l - 1)), (fwd_Z model params X l),
         (fwd_A model params X l), (actn model l).
  split; [apply unpack_params_ok; assumption|].
  split.
  { unfold actn. specialize (Hact l Hl).
    destruct (activation (nth l (layers model) no_layer));
      [reflexivity | congruence]. }
  split; [apply nth_error_cache_A; lia|].
  split; [apply nth_error_cache_Z; lia|].
  split; [apply nth_error_cache_A; lia|].
  split; [reflexivity|].
  split.
  { intros i j Hi Hj. unfold fwd_Z.
    rewrite get_affine; cbn [nrows ncols W_of b_of]; try reflexivity;
      try assumption. rewrite Pc. exact Hj. }
  split; [apply fwd_A_succ; lia|].
  split; assumption.
Qed.

Lemma tiny_activations (l : nat) :
  (1 <= l < length (layers tiny_model))%nat ->
  activation (nth l (layers tiny_model) no_layer) <> None.
Proof.
  intros H. assert (E : l = 1%nat) by (simpl in H; lia). subst l.
  simpl. discriminate.
Defined.

Lemma forward_pass_witness :
  exists A Z Al,
    _propagate_forward tiny_model tiny_X tiny_params = (Ok (A, Z), tiny_params)
    /\ length A = 2%nat /\ nth_error A 0 = Some tiny_X
    /\ nth_error A 1 = Some Al /\ nrows Al = 1%nat /\ ncols Al = 1%nat.
Proof.
  destruct (@forward_pass tiny_model tiny_params tiny_X)
    as (A & Z & H1 & H2 & _ & H4 & _ & H6).
  - reflexivity.
  - reflexivity.
  - simpl; lia.
  - reflexivity.
  - exact tiny_activations.
  - destruct (H6 1%nat) as (W & b & Ap & Zl & Al & t & _ & _ & _ & _ & HA & _ & _
                            & _ & Hr & Hc); [simpl; lia|].
    exists A, Z, Al. repeat split; assumption.
Defined.

(** ** Backward engine *)



(** ** Cost *)
























(** * Further properties of the code *)

(** ** Programs that store nothing *)

Lemma ro_ret {St A} (a : A) : read_only (@ret St A a).
Proof. intros s; reflexivity. Qed.

Lemma ro_lift {St A} (r : res A) : read_only (@lift St A r).
Proof. intros s; reflexivity. Qed.

Lemma ro_get_state {St} : read_only (@get_state St).
Proof. intros s; reflexivity. Qed.

Lemma ro_py_assert {St} (b : bool) : read_only (@py_assert St b).
Proof. intros s; destruct b; reflexivity. Qed.

Lemma ro_bind {St A B} (m : prog St A) (k : A -> prog St B) :
  read_only m -> (forall a, read_only (k a)) -> read_only (bind m k).
Proof.
  intros Hm Hk s. unfold bind. specialize (Hm s).
  destruct (m s) as [[a|e] s']; cbn [snd] in Hm; subst s'.
  - apply Hk.
  - reflexivity.
Qed.

Lemma ro_for_each {St T Acc} (xs : list T) (body : T -> Acc -> prog St Acc)
  (acc : Acc) :
  (forall x a, read_only (body x a)) -> read_only (for_each xs body acc).
Proof.
  intros H. revert acc; induction xs as [|x xs IH]; intros acc; cbn [for_each].
  - apply ro_ret.
  - apply ro_bind; [apply H | exact IH].
Qed.

Lemma ro_unpack_params (model : NnModel) (l : nat) :
  read_only (unpack_params model l).
Proof. intros p. apply unpack_params_read_only. Qed.

Ltac read_only_step :=
  first [ apply ro_ret | apply ro_lift | apply ro_get_state | apply ro_py_assert
        | apply ro_unpack_params
        | apply ro_for_each; intros
        | apply ro_bind; [| intros]
        | match goal with
          | |- read_only (match ?x with _ => _ end) => destruct x
          end
        | progress unfold forward_body, backward_body, cost_body ].

Lemma ro_propagate_forward (model : NnModel) (X : ndarray) :
  read_only (_propagate_forward model X).
Proof.
  unfold _propagate_forward. repeat read_only_step.
Qed.

Lemma ro_compute_cost (model : NnModel) (lambd : R) (AL Y : ndarray) :
  read_only (_compute_cost model lambd AL Y).
Proof.
  unfold _compute_cost. repeat read_only_step.
Qed.

Lemma ro_propagate_backward (model : NnModel) (lambd : R)
  (A : list ndarray) (Z : list (option ndarray)) (Y : ndarray) :
  read_only (_propagate_backward model lambd A Z Y).
Proof.
  unfold _propagate_backward. repeat read_only_step.
Qed.

(** X1.  [_cost] stores nothing into the parameter vector it is given: for
    every model, every [λ] and every [X], [Y] and [params], well shaped or
    not, the vector is the same after the call, also when the call raises. *)
Theorem cost_read_only (model : NnModel) (lambd : R) (X Y : ndarray)
  (params : vec) :
  snd (_cost model lambd X Y params) = params
  /\ snd (_propagate_forward model X params) = params
  /\ (forall AL, snd (_compute_cost model lambd AL Y params) = params)
  /\ (forall A Z, snd (_propagate_backward model lambd A Z Y params) = params).
Proof.
  split; [|split; [|split]].
  - revert params. change (read_only (_cost model lambd X Y)).
    unfold _cost.
    apply ro_bind; [apply ro_propagate_forward | intros [A Z]].
    apply ro_bind; [apply ro_lift | intros AL].
    apply ro_bind; [apply ro_compute_cost | intros cost].
    apply ro_bind; [apply ro_propagate_backward | intros grad].
    apply ro_ret.
  - apply ro_propagate_forward.
  - intros AL. apply ro_compute_cost.
  - intros A Z. apply ro_propagate_backward.
Qed.

(** ** More on the parameter codec *)

Lemma length_slice_gen (a b : nat) (p : vec) :
  length (slice a b p) = Nat.min (b - a) (length p - a).
Proof. unfold slice. rewrite length_firstn, length_skipn. reflexivity. Qed.

Lemma splice_frame (a b : nat) (X p : vec) :
  length X = length (slice a b p) ->
  length (firstn a p ++ X ++ skipn (a + length X) p) = length p
  /\ forall i, (i < a \/ b <= i)%nat ->
               nth i (firstn a p ++ X ++ skipn (a + length X) p) 0 = nth i p 0.
Proof.
  intros HX. rewrite length_slice_gen in HX.
  assert (Hlen : length (firstn a p ++ X ++ skipn (a + length X) p) = length p).
  { rewrite !length_app, length_firstn, length_skipn. lia. }
  split; [exact Hlen|]. intros i Hi.
  destruct (Nat.lt_ge_cases i (length p)) as [Hip|Hip].
  - destruct (Nat.lt_ge_cases i a) as [Hia|Hia].
    + rewrite app_nth1 by (rewrite length_firstn; lia).
      rewrite nth_firstn.
      assert (E : (i <? a)%nat = true) by (apply Nat.ltb_lt; exact Hia).
      rewrite E. reflexivity.
    + rewrite app_nth2 by (rewrite length_firstn; lia).
      rewrite length_firstn.
      rewrite app_nth2 by lia.
      rewrite nth_skipn. f_equal. lia.
  - rewrite !nth_overflow; [reflexivity | exact Hip | rewrite Hlen; exact Hip].
Qed.

Lemma slice_assign_frame (a b : nat) (v p p' : vec) :
  slice_assign a b v p = (Ok tt, p') ->
  length p' = length p
  /\ forall i, (i < a \/ b <= i)%nat -> nth i p' 0 = nth i p 0.
Proof.
  unfold slice_assign. intros H.
  destruct (Nat.eqb_spec (length v) (length (slice a b p))) as [E|E].
  - injection H as <-. rewrite <- E. apply splice_frame. exact E.
  - destruct (length v =? 1)%nat; [|discriminate].
    injection H as <-.
    pose proof (@splice_frame a b (repeat (hd 0 v) (length (slice a b p))) p)
      as F.
    rewrite repeat_length in F. apply F. reflexivity.
Qed.

Lemma getitem_table (ls : list NnLayer) (l : nat) :
  (1 <= l < length ls)%nat -> getitem (table ls) l = Ok (table_entry ls l).
Proof. intros H. unfold getitem. rewrite nth_error_table by exact H. reflexivity. Qed.

(** X2.  A store by [pack_params] stays inside the layer's block: whenever
    [pack_params] returns on a compiled model, for whatever [W], [b] and
    buffer, the buffer keeps its length and every item outside
    [[off l, off (l+1))] keeps its value. *)
Theorem pack_params_frame (model : NnModel) (l : nat) (W b : ndarray)
  (p p' : vec) :
  compiled model ->
  (1 <= l < length (layers model))%nat ->
  pack_params model l W b p = (Ok tt, p') ->
  length p' = length p
  /\ forall i, (i < off (layers model) l \/ off (layers model) (S l) <= i)%nat ->
               nth i p' 0 = nth i p 0.
Proof.
  intros Hc Hl. unfold pack_params, bind, lift.
  rewrite (getitem_nth _ no_layer) by lia.
  rewrite (getitem_pred_nth _ no_layer) by lia.
  destruct (shape_eqb W _ _); [|discriminate]. cbn [py_assert ret].
  destruct (shape_eqb b _ _); [|discriminate]. cbn [py_assert ret].
  rewrite Hc, getitem_table by exact Hl. cbn [ranges_of table_entry].
  destruct (ranges_chain (layers model) (l := l)) as (C1 & C2 & C3 & C4); [lia|].
  destruct (slice_assign _ _ (data W) p) as [[[]|e] p1] eqn:E1; [|discriminate].
  intros E2.
  apply slice_assign_frame in E1. apply slice_assign_frame in E2.
  destruct E1 as [L1 F1], E2 as [L2 F2].
  split; [congruence|]. intros i Hi.
  rewrite F2, F1 by lia. reflexivity.
Qed.

Lemma pack_params_frame_witness :
  exists p',
    pack_params tiny_model 1 (mk_nd 1 2 [3; 4]) (mk_nd 1 1 [5]) [0; 0; 0; 9]
    = (Ok tt, p')
    /\ length p' = 4%nat /\ nth 3 p' 0 = 9.
Proof.
  exists (packed (layers tiny_model) 1 (mk_nd 1 2 [3; 4]) (mk_nd 1 1 [5])
                 [0; 0; 0; 9]).
  destruct (@pack_params_frame tiny_model 1 (mk_nd 1 2 [3; 4]) (mk_nd 1 1 [5])
              [0; 0; 0; 9]
              (packed (layers tiny_model) 1 (mk_nd 1 2 [3; 4]) (mk_nd 1 1 [5])
                      [0; 0; 0; 9])) as [HL HF].
  - reflexivity.
  - simpl; lia.
  - reflexivity.
  - split; [reflexivity|]. split; [exact HL|].
    apply (HF 3%nat). right. vm_compute. lia.
Defined.

(** X3.  [unpack_params] looks at the buffer only up to the end of the
    layer's bias block: on a compiled model it returns the two blocks as soon
    as the buffer reaches that far, whatever follows, and for a layer of
    nonzero width it raises [ValueError] when the buffer is shorter. *)
Theorem unpack_params_needs_prefix (model : NnModel) (l : nat) (p : vec) :
  compiled model ->
  (1 <= l < length (layers model))%nat ->
  ((off (layers model) (S l) <= length p)%nat ->
   unpack_params model l p = (Ok (W_of model p l, b_of model p l), p))
  /\ ((length p < off (layers model) (S l))%nat ->
      (0 < dimn (layers model) l)%nat ->
      unpack_params model l p = (Err ValueError, p)).
Proof.
  intros Hc Hl.
  destruct (ranges_chain (layers model) (l := l)) as (C1 & C2 & C3 & C4); [lia|].
  destruct (w_range_bounds (layers model) Hl) as [_ Hw].
  destruct (b_range_bounds (layers model) Hl) as [_ Hb].
  assert (Hpre :
             unpack_params model l p
             = bind (lift (reshape (slice (fst (w_range (layers model) l))
                                          (snd (w_range (layers model) l)) p)
                                   (dimn (layers model) l)
                                   (dimn (layers model) (l - 1))))
                    (fun W => bind (lift (reshape
                                            (slice (fst (b_range (layers model) l))
                                                   (snd (b_range (layers model) l)) p)
                                            (dimn (layers model) l) 1))
                                   (fun b => ret (W, b))) p).
  { unfold unpack_params, bind, lift, get_state.
    rewrite (getitem_pred_nth _ no_layer) by lia.
    rewrite (getitem_nth _ no_layer) by lia.
    rewrite Hc, getitem_table by exact Hl. reflexivity. }
  rewrite Hpre. unfold bind, lift, ret. split.
  - intros Hlen.
    rewrite reshape_ok by (rewrite length_slice by lia; exact Hw).
    rewrite reshape_ok by (rewrite length_slice by lia; lia).
    reflexivity.
  - intros Hlen Hd.
    destruct (reshape (slice _ _ p) _ (dimn (layers model) (l - 1)))
      as [W|e] eqn:EW.
    + unfold reshape. rewrite length_slice_gen.
      destruct (Nat.eqb_spec (Nat.min (snd (b_range (layers model) l)
                                       - fst (b_range (layers model) l))
                                      (length p - fst (b_range (layers model) l)))
                             (dimn (layers model) l * 1)); [lia | reflexivity].
    + unfold reshape in EW.
      destruct (_ =? _)%nat in EW; [discriminate|]. injection EW as <-.
      reflexivity.
Qed.

Lemma unpack_params_needs_prefix_witness :
  unpack_params tiny_model 1 [2; 3; 5; 7; 11]
  = (Ok (mk_nd 1 2 [2; 3], mk_nd 1 1 [5]), [2; 3; 5; 7; 11])
  /\ unpack_params tiny_model 1 [2; 3] = (Err ValueError, [2; 3]).
Proof.
  destruct (@unpack_params_needs_prefix tiny_model 1 [2; 3; 5; 7; 11])
    as [Hlong _]; [reflexivity | simpl; lia |].
  destruct (@unpack_params_needs_prefix tiny_model 1 [2; 3])
    as [_ Hshort]; [reflexivity | simpl; lia |].
  split.
  - apply Hlong. vm_compute. lia.
  - apply Hshort; vm_compute; lia.
Defined.

(** X4.  Layer 0 has no parameters: on a compiled model with at least one
    layer, [unpack_params] at layer 0 raises [TypeError] on the placeholder
    entry, and [pack_params] at layer 0 raises [AssertionError] or
    [TypeError]; neither stores anything. *)
Theorem layer0_has_no_parameters (model : NnModel) (W b : ndarray) (p : vec) :
  compiled model ->
  (1 <= length (layers model))%nat ->
  unpack_params model 0 p = (Err TypeError, p)
  /\ (pack_params model 0 W b p = (Err AssertionError, p)
      \/ pack_params model 0 W b p = (Err TypeError, p)).
Proof.
  intros Hc HL. split.
  - unfold unpack_params, bind, lift. cbn [getitem_pred].
    rewrite !(getitem_nth _ no_layer) by lia.
    rewrite Hc. reflexivity.
  - unfold pack_params, bind, lift. cbn [getitem_pred].
    rewrite !(getitem_nth _ no_layer) by lia.
    destruct (shape_eqb W _ _); [|left; reflexivity]. cbn [py_assert ret].
    destruct (shape_eqb b _ _); [|left; reflexivity]. cbn [py_assert ret].
    rewrite Hc. right. reflexivity.
Qed.

Lemma layer0_has_no_parameters_witness :
  unpack_params tiny_model 0 [2; 3; 5] = (Err TypeError, [2; 3; 5]).
Proof.
  refine (proj1 (@layer0_has_no_parameters tiny_model (mk_nd 2 1 [0; 0])
                   (mk_nd 2 1 [0; 0]) [2; 3; 5] _ _)).
  - reflexivity.
  - simpl; lia.
Defined.

Lemma add_keeps_offsets (units : nat) (act : string) (input_dim : nat)
  (m : NnModel) :
  layer_offsets (snd (add units act input_dim m)) = layer_offsets m.
Proof.
  unfold add, bind, get_state, lift, append_layer, ret.
  destruct (negb (input_dim =? 0)%nat && is_empty (layers m));
    destruct (activations act); reflexivity.
Qed.

Lemma run_adds_keeps_offsets (calls : list add_call) (m : NnModel) :
  layer_offsets (run_adds calls m) = layer_offsets m.
Proof.
  revert m; induction calls as [|[[u a] i] calls IH]; intros m.
  - reflexivity.
  - cbn [run_adds fold_left]. change (fold_left _ calls ?x) with (run_adds calls x).
    rewrite IH. apply add_keeps_offsets.
Qed.

Lemma getitem_nil {A} (i : nat) : @getitem A [] i = Err IndexError.
Proof. unfold getitem. destruct i; reflexivity. Qed.

(** X5.  Before [compile] there is no offset table: on a model built by
    [add] calls alone, [unpack_params] raises [IndexError] for every layer
    index and every buffer, and [pack_params] raises too; neither stores
    anything. *)
Theorem codec_before_compile (calls : list add_call) (l : nat)
  (W b : ndarray) (p : vec) :
  let model := run_adds calls new_model in
  unpack_params model l p = (Err IndexError, p)
  /\ (pack_params model l W b p = (Err IndexError, p)
      \/ pack_params model l W b p = (Err AssertionError, p)).
Proof.
  intros model.
  assert (Ho : layer_offsets model = [])
    by (unfold model; apply run_adds_keeps_offsets).
  split.
  - unfold unpack_params, bind, lift.
    destruct (getitem_pred (layers model) l) as [prev|e] eqn:E1.
    + destruct (getitem (layers model) l) as [cur|e] eqn:E2.
      * rewrite Ho, getitem_nil. reflexivity.
      * unfold getitem in E2. destruct (nth_error _ _); [discriminate|].
        injection E2 as <-. reflexivity.
    + destruct l; cbn [getitem_pred] in E1; unfold getitem in E1;
        destruct (nth_error _ _); try discriminate; injection E1 as <-;
        reflexivity.
  - unfold pack_params, bind, lift.
    destruct (getitem (layers model) l) as [cur|e] eqn:E2.
    + destruct (getitem_pred (layers model) l) as [prev|e] eqn:E1.
      * destruct (shape_eqb W _ _); [|right; reflexivity]. cbn [py_assert ret].
        destruct (shape_eqb b _ _); [|right; reflexivity]. cbn [py_assert ret].
        rewrite Ho, getitem_nil. left; reflexivity.
      * destruct l; cbn [getitem_pred] in E1; unfold getitem in E1;
          destruct (nth_error _ _); try discriminate; injection E1 as <-;
          left; reflexivity.
    + unfold getitem in E2. destruct (nth_error _ _); [discriminate|].
      injection E2 as <-. left; reflexivity.
Qed.

(** X6.  [add] does not touch the offset table, so a table compiled before
    an [add] is stale: the layers it knows still unpack as before, the new
    layer has no entry and [unpack_params] raises [IndexError] there, and
    [compile] called again makes the model compiled. *)
Theorem add_after_compile_is_stale (m : NnModel) (units : nat) (key : string)
  (input_dim : nat) (t : act_tuple) :
  compiled m ->
  (1 <= length (layers m))%nat ->
  activations key = Ok t ->
  let m' := snd (add units key input_dim m) in
  layers m' = layers m ++ [mk_layer units (Some t)]
  /\ layer_offsets m' = layer_offsets m
  /\ (forall l p, (1 <= l < length (layers m))%nat ->
                  unpack_params m' l p = unpack_params m l p)
  /\ (forall p, unpack_params m' (length (layers m)) p = (Err IndexError, p))
  /\ compiled (snd (compile m')).
Proof.
  intros Hc HL Hk m'.
  assert (Hl : layers m' = layers m ++ [mk_layer units (Some t)]).
  { unfold m'. rewrite add_layers, Hk.
    destruct (layers m) as [|x rest]; [simpl in HL; lia|].
    cbn [is_empty]. rewrite andb_false_r. reflexivity. }
  assert (Ho : layer_offsets m' = layer_offsets m)
    by (unfold m'; apply add_keeps_offsets).
  split; [exact Hl|]. split; [exact Ho|]. split; [|split].
  - intros l p Hlp. unfold unpack_params, bind, lift.
    rewrite Ho, Hl.
    rewrite !(getitem_pred_nth _ no_layer) by (rewrite ?length_app; simpl; lia).
    rewrite !(getitem_nth _ no_layer) by (rewrite ?length_app; simpl; lia).
    rewrite !app_nth1 by lia. reflexivity.
  - intros p. unfold unpack_params, bind, lift. rewrite Ho, Hl.
    rewrite (getitem_pred_nth _ no_layer) by (rewrite length_app; simpl; lia).
    rewrite (getitem_nth _ no_layer) by (rewrite length_app; simpl; lia).
    rewrite Hc. unfold getitem at 1.
    assert (E : nth_error (table (layers m)) (length (layers m)) = None).
    { apply nth_error_None. unfold table. cbn [length].
      rewrite length_map, length_range. lia. }
    rewrite E. reflexivity.
  - apply compiled_compile.
Qed.

Lemma add_after_compile_is_stale_witness :
  unpack_params (snd (add 1 "relu" 0 tiny_model)) 2 [2; 3; 5; 7; 11]
  = (Err IndexError, [2; 3; 5; 7; 11]).
Proof.
  destruct (@add_after_compile_is_stale tiny_model 1 "relu" 0 ActRelu)
    as (_ & _ & _ & H & _).
  - reflexivity.
  - simpl; lia.
  - reflexivity.
  - exact (H [2; 3; 5; 7; 11]).
Defined.

(** X7.  Stores at different layers do not disturb each other: on a
    compiled model and a buffer of full length, after [pack_params] at
    layer [l] and then at another layer [l'], [unpack_params] returns at [l]
    what was packed at [l] and at [l'] what was packed at [l']. *)
Theorem pack_two_layers (model : NnModel) (l l' : nat) (W b W' b' : ndarray)
  (p : vec) :
  let ls := layers model in
  compiled model ->
  length p = total_len ls ->
  (1 <= l < length ls)%nat -> (1 <= l' < length ls)%nat -> l <> l' ->
  wf W -> wf b -> wf W' -> wf b' ->
  shape_eqb W (dimn ls l) (dimn ls (l - 1)) = true ->
  shape_eqb b (dimn ls l) 1 = true ->
  shape_eqb W' (dimn ls l') (dimn ls (l' - 1)) = true ->
  shape_eqb b' (dimn ls l') 1 = true ->
  exists p1 p2,
    pack_params model l W b p = (Ok tt, p1)
    /\ pack_params model l' W' b' p1 = (Ok tt, p2)
    /\ unpack_params model l p2 = (Ok (W, b), p2)
    /\ unpack_params model l' p2 = (Ok (W', b'), p2).
Proof.
  intros ls Hc Hp Hl Hl' Hne HW Hb HW' Hb' S1 S2 S3 S4. subst ls.
  unfold shape_eqb in S1, S2, S3, S4.
  apply andb_prop in S1, S2, S3, S4.
  destruct S1 as [W1 W2], S2 as [B1 B2], S3 as [W1' W2'], S4 as [B1' B2'].
  apply Nat.eqb_eq in W1, W2, B1, B2, W1', W2', B1', B2'.
  set (p1 := packed (layers model) l W b p).
  set (p2 := packed (layers model) l' W' b' p1).
  assert (L1 : length p1 = total_len (layers model))
    by (unfold p1; rewrite length_packed; assumption).
  assert (L2 : length p2 = total_len (layers model))
    by (unfold p2; rewrite length_packed; assumption).
  exists p1, p2. split; [apply pack_params_ok; assumption|].
  split; [apply pack_params_ok; assumption|]. split.
  - rewrite unpack_params_ok by assumption.
    destruct (@packed_other model l' W' b' p1 L1 Hl' HW' Hb' W1' W2' B1' B2' l Hl Hne)
      as [EW Eb].
    fold p2 in EW, Eb. rewrite EW, Eb. unfold p1.
    rewrite W_of_packed, b_of_packed by assumption. reflexivity.
  - rewrite unpack_params_ok by assumption. unfold p2.
    rewrite W_of_packed, b_of_packed by assumption. reflexivity.
Qed.

Lemma pack_two_layers_witness :
  exists p1 p2,
    pack_params small_net 1 (mk_nd 2 2 [1; 2; 3; 4]) (mk_nd 2 1 [5; 6])
                (repeat 0 9) = (Ok tt, p1)
    /\ pack_params small_net 2 (mk_nd 1 2 [7; 8]) (mk_nd 1 1 [9]) p1 = (Ok tt, p2)
    /\ unpack_params small_net 1 p2
       = (Ok (mk_nd 2 2 [1; 2; 3; 4], mk_nd 2 1 [5; 6]), p2)
    /\ unpack_params small_net 2 p2 = (Ok (mk_nd 1 2 [7; 8], mk_nd 1 1 [9]), p2).
Proof.
  apply (@pack_two_layers small_net 1 2); try reflexivity.
  - simpl; lia.
  - simpl; lia.
  - discriminate.
Defined.

(** ** Prediction *)

Section Predict.

Variable model : NnModel.
Variable params : vec.
Variable X : ndarray.

Hypothesis Hc : compiled model.
Hypothesis Hp : length params = total_len (layers model).
Hypothesis HX : nrows X = dimn (layers model) 0.
Hypothesis Hact : forall l, (1 <= l < length (layers model))%nat ->
                            activation (nth l (layers model) no_layer) <> None.

Lemma predict_body_ok (k : nat) :
  (S k < length (layers model))%nat ->
  predict_body model (Some params) X (S k) (fwd_A model params X k) tt
  = (Ok (fwd_A model params X (S k)), tt).
Proof using Hc Hp HX Hact.
  intros Hk. unfold predict_body, bind, lift, ret.
  rewrite (getitem_nth _ no_layer) by lia.
  cbn [unpack_params_of]. rewrite unpack_params_ok by (try assumption; lia).
  cbn [fst].
  destruct (shape_fwd_A model params X HX k) as [Ar Ac].
  rewrite np_dot_ok by (rewrite Ar; cbn [ncols W_of]; f_equal; lia).
  unfold np_add. rewrite np_bcast_ok
    by (cbn; auto using compatible_same, compatible_one_r).
  rewrite subscript_ok by (apply Hact; lia).
  fold (actn model (S k)).
  fold (affine (W_of model params (S k)) (fwd_A model params X k)
               (b_of model params (S k))).
  change (act_value (actn model (S k))
            (affine (W_of model params (S k)) (fwd_A model params X k)
                    (b_of model params (S k))))
    with (fwd_A model params X (S k)).
  destruct (shape_fwd_A model params X HX (S k)) as [Br Bc].
  rewrite shape_eqb_refl by assumption. reflexivity.
Qed.

Lemma predict_loop_ok :
  (1 <= length (layers model))%nat ->
  for_each (range 1 (length (layers model)))
           (predict_body model (Some params) X) X tt
  = (Ok (fwd_A model params X (top model)), tt).
Proof using Hc Hp HX Hact.
  intros HL.
  destruct (for_each_inv
              (fun k (A : ndarray) (_ : unit) => A = fwd_A model params X k)
              (range 1 (length (layers model)))
              (predict_body model (Some params) X) X tt)
    as (A & [] & Hrun & HA).
  - reflexivity.
  - intros k x A [] Hx ->.
    apply nth_error_range_inv in Hx; destruct Hx as [Hk ->].
    eexists _, tt; split; [apply predict_body_ok; lia | reflexivity].
  - rewrite Hrun, HA, length_range. reflexivity.
Qed.

End Predict.

Lemma predict_ok (model : NnModel) (params : vec) (X : ndarray) :
  compiled model ->
  length params = total_len (layers model) ->
  (1 <= length (layers model))%nat ->
  nrows X = dimn (layers model) 0 ->
  (forall l, (1 <= l < length (layers model))%nat ->
             activation (nth l (layers model) no_layer) <> None) ->
  dimn (layers model) (top model) = 1%nat ->
  predict model (Some params) X
  = Ok (mk_bool_nd 1 (ncols X)
                   (map gt_half (data (fwd_A model params X (top model))))).
Proof.
  intros Hc Hp HL HX Hact Htop.
  destruct (shape_fwd_A model params X HX (top model)) as [Ar Ac].
  unfold predict, bind, lift.
  rewrite (getitem_nth _ no_layer) by lia.
  fold (dimn (layers model) 0). rewrite HX, Nat.eqb_refl. cbn [py_assert ret].
  rewrite predict_loop_ok by assumption.
  cbn [brows bcols]. rewrite Ar, Ac, Htop, !Nat.eqb_refl.
  reflexivity.
Qed.

Lemma tiny_predict :
  predict tiny_model (Some tiny_params) tiny_X
  = Ok (mk_bool_nd 1 1 (map gt_half (data (fwd_A tiny_model tiny_params tiny_X 1)))).
Proof.
  apply (@predict_ok tiny_model tiny_params tiny_X); try reflexivity.
  - simpl; lia.
  - exact tiny_activations.
Defined.

(** X8.  [predict] with trained parameters is the forward pass followed by
    the threshold: on a compiled model with a one-unit top layer, [params] of
    full length and [X] of shape [(dim[0], m)], it returns the [(1, m)]
    boolean array [A_L > 0.5] for the last activation [A_L] that
    [_propagate_forward] returns. *)
Theorem predict_is_thresholded_forward (model : NnModel) (params : vec)
  (X : ndarray) :
  let ls := layers model in
  compiled model ->
  length params = total_len ls ->
  (1 <= length ls)%nat ->
  nrows X = dimn ls 0 ->
  (forall l, (1 <= l < length ls)%nat -> activation (nth l ls no_layer) <> None) ->
  dimn ls (length ls - 1) = 1%nat ->
  exists A Z AL,
    _propagate_forward model X params = (Ok (A, Z), params)
    /\ getitem_last A = Ok AL
    /\ predict model (Some params) X
       = Ok (mk_bool_nd 1 (ncols X) (map gt_half (data AL))).
Proof.
  intros ls Hc Hp HL HX Hact Htop. subst ls.
  exists (cache_A model params X (top model)), (cache_Z model params X (top model)),
         (fwd_A model params X (top model)).
  split; [apply propagate_forward_ok; assumption|]. split.
  - unfold getitem_last, getitem, cache_A. rewrite length_map, length_seq.
    replace (S (top model) - 1)%nat with (top model) by lia.
    fold (cache_A model params X (top model)).
    rewrite nth_error_cache_A by lia. reflexivity.
  - apply predict_ok; assumption.
Qed.

Lemma predict_is_thresholded_forward_witness :
  exists AL, predict tiny_model (Some tiny_params) tiny_X
             = Ok (mk_bool_nd 1 1 (map gt_half (data AL))).
Proof.
  destruct (@predict_is_thresholded_forward tiny_model tiny_params tiny_X)
    as (A & Z & AL & _ & _ & H).
  - reflexivity.
  - reflexivity.
  - simpl; lia.
  - reflexivity.
  - exact tiny_activations.
  - reflexivity.
  - exists AL. exact H.
Defined.

(** X9.  [predict] before [train], when [self.params] is still [None]: on a
    compiled model with a transformation layer and [X] of [dim[0]] rows it
    raises [TypeError] at the first [unpack_params]; on a model of a single
    layer of one unit no parameter is read and it returns [X > 0.5]. *)
Theorem predict_before_train (model : NnModel) (X : ndarray) :
  compiled model ->
  nrows X = dimn (layers model) 0 ->
  ((2 <= length (layers model))%nat -> predict model None X = Err TypeError)
  /\ (length (layers model) = 1%nat -> nrows X = 1%nat ->
      predict model None X = Ok (threshold X)).
Proof.
  intros Hc HX. split.
  - intros HL. unfold predict, bind, lift.
    rewrite (getitem_nth _ no_layer) by lia.
    fold (dimn (layers model) 0). rewrite HX, Nat.eqb_refl. cbn [py_assert ret].
    unfold range.
    destruct (length (layers model) - 1)%nat as [|n] eqn:En; [lia|].
    cbn [seq for_each]. unfold bind at 1. unfold predict_body at 1.
    unfold bind, lift.
    rewrite (getitem_nth _ no_layer) by lia.
    cbn [unpack_params_of getitem_pred].
    rewrite !(getitem_nth _ no_layer) by lia.
    rewrite Hc, getitem_table by lia. reflexivity.
  - intros HL H1. unfold predict, bind, lift, threshold.
    rewrite (getitem_nth _ no_layer) by lia.
    fold (dimn (layers model) 0). rewrite <- HX, Nat.eqb_refl.
    cbn [py_assert ret].
    rewrite HL. cbn [range Nat.sub seq for_each ret brows bcols].
    rewrite H1, !Nat.eqb_refl. reflexivity.
Qed.

Lemma predict_before_train_witness :
  predict tiny_model None tiny_X = Err TypeError.
Proof.
  refine (proj1 (@predict_before_train tiny_model tiny_X _ _) _).
  - reflexivity.
  - reflexivity.
  - simpl; lia.
Defined.

(** X10.  What [predict] rejects at once, whatever the parameters: on a model
    without layers it raises [IndexError], and when [X] has not [dim[0]] rows
    it raises [AssertionError]. *)
Theorem predict_rejects (model : NnModel) (params : option vec) (X : ndarray) :
  (layers model = [] -> predict model params X = Err IndexError)
  /\ (forall ly, nth_error (layers model) 0 = Some ly -> nrows X <> dim ly ->
                 predict model params X = Err AssertionError).
Proof.
  split.
  - intros H. unfold predict, bind, lift. rewrite H. reflexivity.
  - intros ly H Hne. unfold predict, bind, lift, getitem. rewrite H.
    destruct (Nat.eqb_spec (nrows X) (dim ly)); [contradiction | reflexivity].
Qed.

Lemma predict_rejects_witness :
  predict new_model None tiny_X = Err IndexError
  /\ predict tiny_model (Some tiny_params) (mk_nd 3 1 [1; 1; 1]) = Err AssertionError.
Proof.
  destruct (@predict_rejects new_model None tiny_X) as [H1 _].
  destruct (@predict_rejects tiny_model (Some tiny_params) (mk_nd 3 1 [1; 1; 1]))
    as [_ H2].
  split.
  - apply H1. reflexivity.
  - apply (H2 (mk_layer 2 None)); [reflexivity | simpl; lia].
Defined.

(** X11.  Whenever [predict] returns, for whatever model, parameters and
    input, the result has shape [(1, m)] with [m] the number of columns of
    [X]. *)
Theorem predict_shape (model : NnModel) (params : option vec) (X : ndarray)
  (P : bool_ndarray) :
  predict model params X = Ok P ->
  brows P = 1%nat /\ bcols P = ncols X.
Proof.
  unfold predict, bind, lift.
  destruct (getitem (layers model) 0) as [ly|e]; [|discriminate].
  destruct (nrows X =? dim ly)%nat; [|discriminate]. cbn [py_assert ret].
  destruct (for_each _ _ X tt) as [[A|e] []]; [|discriminate].
  cbn [brows bcols].
  destruct (Nat.eqb_spec (nrows A) 1) as [E1|E1]; [|discriminate].
  destruct (Nat.eqb_spec (ncols A) (ncols X)) as [E2|E2]; [|discriminate].
  cbn [py_assert ret fst andb]. intros H. injection H as <-.
  split; assumption.
Qed.

Lemma predict_shape_witness :
  exists P, predict tiny_model (Some tiny_params) tiny_X = Ok P
            /\ brows P = 1%nat /\ bcols P = 1%nat.
Proof.
  eexists. split; [exact tiny_predict|].
  apply (@predict_shape tiny_model (Some tiny_params) tiny_X _ tiny_predict).
Defined.

(** ** Activations *)

Lemma sigmoid1_bounds (z : R) : 0 < sigmoid1 z < 1.
Proof.
  unfold sigmoid1. pose proof (exp_pos (- z)) as He.
  assert (Hd : 0 < 1 + exp (- z)) by lra.
  assert (Hi : 0 < / (1 + exp (- z))) by (apply Rinv_0_lt_compat; exact Hd).
  assert (E : 1 / (1 + exp (- z)) * (1 + exp (- z)) = 1) by (field; lra).
  unfold Rdiv in *. rewrite Rmult_1_l in *. split; [exact Hi | nra].
Qed.

Lemma tabulate_ext (r c : nat) (f g : nat -> nat -> R) :
  (forall i j, (i < r)%nat -> (j < c)%nat -> f i j = g i j) ->
  tabulate r c f = tabulate r c g.
Proof.
  intros H. unfold tabulate. f_equal.
  rewrite !flat_map_concat_map. f_equal.
  apply map_ext_in. intros i Hi. apply in_seq in Hi.
  apply map_ext_in. intros j Hj. apply in_seq in Hj.
  apply H; lia.
Qed.

Lemma in_tabulate (r c : nat) (f : nat -> nat -> R) (x : R) :
  In x (data (tabulate r c f)) ->
  exists i j, (i < r)%nat /\ (j < c)%nat /\ x = f i j.
Proof.
  unfold tabulate; cbn [data]. intros H.
  apply in_flat_map in H. destruct H as (i & Hi & H).
  apply in_map_iff in H. destruct H as (j & <- & Hj).
  apply in_seq in Hi, Hj. exists i, j. repeat split; lia.
Qed.



Lemma bcast_mult_assoc (M N P : ndarray) :
  nrows N = nrows M -> ncols N = ncols M ->
  nrows P = nrows M -> ncols P = ncols M ->
  bcast Rmult (bcast Rmult M N) P = bcast Rmult M (bcast Rmult N P).
Proof.
  intros N1 N2 P1 P2.
  assert (S1 : nrows (bcast Rmult M N) = nrows M
               /\ ncols (bcast Rmult M N) = ncols M)
    by (cbn; rewrite N1, N2, !bdim_same; split; reflexivity).
  assert (S2 : nrows (bcast Rmult N P) = nrows M
               /\ ncols (bcast Rmult N P) = ncols M)
    by (cbn; rewrite P1, P2, N1, N2, !bdim_same; split; reflexivity).
  destruct S1 as [S1r S1c], S2 as [S2r S2c].
  rewrite (bcast_same_shape Rmult (bcast Rmult M N) P) by congruence.
  rewrite (bcast_same_shape Rmult M (bcast Rmult N P)) by congruence.
  rewrite S1r, S1c. apply tabulate_ext. intros i j Hi Hj.
  rewrite (bget_get (bcast Rmult M N)) by (rewrite ?S1r, ?S1c; assumption).
  rewrite (bget_get (bcast Rmult N P)) by (rewrite ?S2r, ?S2c; assumption).
  rewrite (get_bcast_same Rmult M N) by assumption.
  rewrite (get_bcast_same Rmult N P) by congruence.
  rewrite !bget_get by congruence. ring.
Qed.

(** X13.  The sigmoid pair of the registry is consistent: for [dA] and [z]
    of one shape, [sigmoid_backward(dA, z)] is [dA ⊙ sigmoid_derv(z)]. *)
Theorem sigmoid_backward_is_chain_rule (dA z : ndarray) :
  nrows z = nrows dA -> ncols z = ncols dA ->
  exists d, sigmoid_derv z = Ok d
            /\ sigmoid_backward dA z = np_multiply dA d.
Proof.
  intros Hr Hcl.
  exists (bcast Rmult (sigmoid z) (mmap (fun x => 1 - x) (sigmoid z))).
  split.
  - unfold sigmoid_derv, np_multiply. apply np_bcast_ok; shapes.
  - unfold sigmoid_backward, np_multiply.
    rewrite np_bcast_ok by shapes. cbn [rbind].
    rewrite np_bcast_ok by shapes.
    rewrite np_bcast_ok by shapes.
    f_equal. apply bcast_mult_assoc; cbn; assumption.
Qed.

Lemma sigmoid_backward_is_chain_rule_witness :
  exists d, sigmoid_derv (mk_nd 1 2 [0; 1]) = Ok d
            /\ sigmoid_backward (mk_nd 1 2 [3; 4]) (mk_nd 1 2 [0; 1])
               = np_multiply (mk_nd 1 2 [3; 4]) d.
Proof.
  apply (@sigmoid_backward_is_chain_rule (mk_nd 1 2 [3; 4]) (mk_nd 1 2 [0; 1]));
    reflexivity.
Defined.

(** X14.  [relu] never returns a negative item, keeps the shape, and leaves
    its own output as it is: [relu(relu(z)) = relu(z)]. *)
Theorem relu_nonneg_idempotent (z : ndarray) :
  (forall a, In a (data (relu z)) -> 0 <= a)
  /\ nrows (relu z) = nrows z /\ ncols (relu z) = ncols z
  /\ relu (relu z) = relu z.
Proof.
  split; [|split; [reflexivity | split; [reflexivity|]]].
  - intros a Ha. unfold relu, mmap in Ha; cbn [data] in Ha.
    apply in_map_iff in Ha. destruct Ha as (x & <- & _). apply Rmax_l.
  - unfold relu, mmap; cbn [nrows ncols data]. f_equal.
    rewrite map_map. apply map_ext. intros x.
    apply Rmax_right. apply Rmax_l.
Qed.

(** X15.  The derivative of the sigmoid is never negative and at most 1/4:
    for a well-formed [z], [sigmoid_derv(z)] returns an array of the shape of
    [z] whose items all lie between 0 and 1/4, both included.  The lower end
    point is part of the statement: in float64 the product [a * (1 - a)] is
    exactly 0 where the sigmoid has returned exactly 1 or 0. *)
Theorem sigmoid_derv_bounds (z : ndarray) :
  wf z ->
  exists d, sigmoid_derv z = Ok d
            /\ nrows d = nrows z /\ ncols d = ncols z
            /\ forall x, In x (data d) -> 0 <= x <= 1 / 4.
Proof.
  intros Hz.
  exists (bcast Rmult (sigmoid z) (mmap (fun x => 1 - x) (sigmoid z))).
  split; [unfold sigmoid_derv, np_multiply; apply np_bcast_ok; shapes|].
  split; [cbn; apply bdim_same|]. split; [cbn; apply bdim_same|].
  intros x Hx. unfold bcast in Hx. apply in_tabulate in Hx.
  destruct Hx as (i & j & Hi & Hj & ->).
  cbn [nrows ncols mmap sigmoid] in Hi, Hj. rewrite bdim_same in Hi, Hj.
  rewrite !bget_get by (cbn; assumption).
  rewrite (get_mmap (fun x => 1 - x))
    by (unfold sigmoid; auto using wf_mmap || (cbn; assumption)).
  unfold sigmoid. rewrite get_mmap by assumption.
  pose proof (sigmoid1_bounds (get z i j)) as [H0 H1].
  set (s := sigmoid1 (get z i j)) in *.
  pose proof (Rle_0_sqr (s - 1 / 2)) as Hsq. unfold Rsqr in Hsq.
  split; [apply Rmult_le_pos; lra | lra].
Qed.

Lemma sigmoid_derv_bounds_witness :
  exists d, sigmoid_derv (mk_nd 1 2 [0; 1]) = Ok d
            /\ forall x, In x (data d) -> 0 <= x <= 1 / 4.
Proof.
  destruct (@sigmoid_derv_bounds (mk_nd 1 2 [0; 1])) as (d & H1 & _ & _ & H2).
  - reflexivity.
  - exists d. split; assumption.
Defined.

(** ** Errors of the forward pass and of [add] *)

(** X16.  The forward pass does not check the rows of [X] itself: on a
    compiled model with a transformation layer and [params] of full length,
    an [X] whose number of rows is not [dim[0]] makes [np.dot] raise
    [ValueError] at layer 1, in [_propagate_forward] and so in [_cost]. *)
Theorem forward_rejects_wrong_rows (model : NnModel) (lambd : R)
  (params : vec) (X Y : ndarray) :
  compiled model ->
  length params = total_len (layers model) ->
  (2 <= length (layers model))%nat ->
  nrows X <> dimn (layers model) 0 ->
  _propagate_forward model X params = (Err ValueError, params)
  /\ _cost model lambd X Y params = (Err ValueError, params).
Proof.
  intros Hc Hp HL HX.
  assert (E : _propagate_forward model X params = (Err ValueError, params)).
  { unfold _propagate_forward, range.
    destruct (length (layers model) - 1)%nat as [|n] eqn:En; [lia|].
    cbn [seq for_each]. unfold bind at 1. unfold forward_body at 1.
    unfold bind, lift.
    rewrite (getitem_nth _ no_layer) by lia.
    rewrite unpack_params_ok by (try assumption; lia).
    cbn [getitem_pred getitem nth_error]. unfold np_dot.
    cbn [ncols W_of Nat.sub].
    destruct (Nat.eqb_spec (dimn (layers model) 0) (nrows X)) as [E|E];
      [congruence | reflexivity]. }
  split; [exact E|]. unfold _cost, bind. rewrite E. reflexivity.
Qed.

Lemma forward_rejects_wrong_rows_witness :
  _propagate_forward tiny_model (mk_nd 3 1 [1; 1; 1]) tiny_params
  = (Err ValueError, tiny_params).
Proof.
  refine (proj1 (@forward_rejects_wrong_rows tiny_model 0 tiny_params
                   (mk_nd 3 1 [1; 1; 1]) tiny_Y _ _ _ _)).
  - reflexivity.
  - reflexivity.
  - simpl; lia.
  - vm_compute; lia.
Defined.

(** X17.  [add] with an activation key other than ['relu'] and ['sigmoid']
    raises [KeyError] and appends no transformation layer; but on a model
    without layers and with a nonzero [input_dim] the input layer has
    already been appended when the exception leaves [add]. *)
Theorem add_unknown_activation (units : nat) (key : string) (input_dim : nat)
  (m : NnModel) :
  key <> "relu"%string -> key <> "sigmoid"%string ->
  add units key input_dim m
  = (Err KeyError,
     mk_model (layers m ++ (if negb (input_dim =? 0)%nat && is_empty (layers m)
                            then [mk_layer input_dim None] else []))
              (layer_offsets m)).
Proof.
  intros H1 H2.
  assert (E : activations key = Err KeyError).
  { unfold activations.
    apply String.eqb_neq in H1, H2. rewrite H1, H2. reflexivity. }
  unfold add, bind, get_state, lift, append_layer, ret. rewrite E.
  destruct (negb (input_dim =? 0)%nat && is_empty (layers m)); cbn [layers layer_offsets].
  - reflexivity.
  - rewrite app_nil_r. destruct m; reflexivity.
Qed.

Lemma add_unknown_activation_witness :
  add 4 "tanh" 3 new_model = (Err KeyError, mk_model [mk_layer 3 None] []).
Proof.
  apply (@add_unknown_activation 4 "tanh" 3 new_model); discriminate.
Defined.

(** ** More on the optimizer *)

Lemma for_each_app {St T Acc} (xs ys : list T) (body : T -> Acc -> prog St Acc)
  (acc : Acc) (s : St) :
  for_each (xs ++ ys) body acc s
  = bind (for_each xs body acc) (for_each ys body) s.
Proof.
  revert acc s; induction xs as [|x xs IH]; intros acc s; simpl.
  - reflexivity.
  - unfold bind in *.
    destruct (body x acc s) as [[a|e] s']; [apply IH | reflexivity].
Qed.

Lemma range_split (k n : nat) :
  (k < n)%nat -> range 0 n = range 0 k ++ k :: range (S k) n.
Proof.
  intros H. unfold range. rewrite !Nat.sub_0_r.
  replace n with (k + S (n - S k))%nat at 1 by lia.
  rewrite seq_app. cbn [seq Nat.add]. reflexivity.
Qed.

(** X18.  [optimize] stops at the first cost evaluation that raises: when
    the steps before step [k < iters] go through and [cost_fn] raises [e] at
    the parameters of step [k], [optimize] raises [e], and what was printed
    for the steps before [k] stays printed. *)
Theorem optimize_stops_at_first_error (self : GradDescentOptimizer)
  (cost_fn : vec -> res (R * vec))
  (ps : nat -> vec) (cs : nat -> R) (gs : nat -> vec) (out : stdout)
  (k : nat) (e : pyerr) :
  (k < iters self)%nat ->
  (forall i, (i < k)%nat -> cost_fn (ps i) = Ok (cs i, gs i)) ->
  (forall i, (i < k)%nat -> length (gs i) = length (ps i)) ->
  (forall i, (i < k)%nat ->
             ps (S i) = zip_with Rminus (ps i) (map (Rmult (alpha self)) (gs i))) ->
  cost_fn (ps k) = Err e ->
  optimize self cost_fn (ps O) out
  = (Err e,
     out ++ (if debug self
             then map (fun i => (i, cs i))
                      (filter (fun i => (i mod 100 =? 0)%nat) (seq O k))
             else [])).
Proof.
  intros Hk Hcall Hlen Hstep Herr. destruct self as [a d n].
  cbn [iters alpha debug] in *.
  pose proof (@optimize_ok (mk_optimizer a d k) cost_fn ps cs gs
                Hcall Hlen Hstep out) as Hpre.
  unfold optimize in *. cbn [iters] in *.
  rewrite (range_split Hk), for_each_app. unfold bind at 1.
  change (optimize_body (mk_optimizer a d n) cost_fn)
    with (optimize_body (mk_optimizer a d k) cost_fn) at 1.
  rewrite Hpre. cbn [for_each]. unfold bind at 1.
  unfold optimize_body at 1. unfold bind, lift. rewrite Herr. reflexivity.
Qed.

Lemma optimize_stops_at_first_error_witness :
  optimize (mk_optimizer 1 true 5)
           (fun p => if Rle_dec (hd 0 p) 0 then Err ValueError else Ok (7, [1]))
           [1] []
  = (Err ValueError, [(0%nat, 7)]).
Proof.
  refine (@optimize_stops_at_first_error (mk_optimizer 1 true 5)
            (fun p => if Rle_dec (hd 0 p) 0 then Err ValueError else Ok (7, [1]))
            (fun i => match i with O => [1] | _ => [1 - 1 * 1] end)
            (fun _ => 7) (fun _ => [1]) [] 1%nat ValueError _ _ _ _ _).
  - simpl; lia.
  - intros i Hi. assert (i = O) by lia. subst i. cbn [hd].
    destruct (Rle_dec 1 0); [lra | reflexivity].
  - intros i Hi. assert (i = O) by lia. subst i. reflexivity.
  - intros i Hi. assert (i = O) by lia. subst i. reflexivity.
  - cbn [hd]. destruct (Rle_dec (1 - 1 * 1) 0); [reflexivity | lra].
Defined.

Lemma length_logged (n : nat) : length (logged n) = ((n + 99) / 100)%nat.
Proof.
  induction n as [|n IH].
  - reflexivity.
  - rewrite logged_succ.
    pose proof (Nat.div_mod_eq n 100) as Hn.
    pose proof (Nat.mod_upper_bound n 100 ltac:(lia)) as Hr.
    remember (n / 100)%nat as q eqn:Eq. remember (n mod 100)%nat as r eqn:Er.
    destruct (Nat.eqb_spec r 0) as [E|E].
    + rewrite length_app, IH. cbn [length].
      assert (E1 : ((n + 99) / 100 = q)%nat)
        by (symmetry; apply (Nat.div_unique (n + 99) 100 q 99); lia).
      assert (E2 : ((S n + 99) / 100 = q + 1)%nat)
        by (symmetry; apply (Nat.div_unique (S n + 99) 100 (q + 1) 0); lia).
      rewrite E1, E2. reflexivity.
    + rewrite IH.
      assert (E1 : ((n + 99) / 100 = q + 1)%nat)
        by (symmetry; apply (Nat.div_unique (n + 99) 100 (q + 1) (r - 1)); lia).
      assert (E2 : ((S n + 99) / 100 = q + 1)%nat)
        by (symmetry; apply (Nat.div_unique (S n + 99) 100 (q + 1) r); lia).
      rewrite E1, E2. reflexivity.
Qed.

(** X19.  The trace of [optimize] has one entry per started hundred of
    steps: when all [iters] steps go through, the returned list of costs has
    length [⌈iters / 100⌉], and as many lines are printed with [debug] set,
    none without. *)
Theorem optimize_trace_length (self : GradDescentOptimizer)
  (cost_fn : vec -> res (R * vec))
  (ps : nat -> vec) (cs : nat -> R) (gs : nat -> vec) (out : stdout) :
  (forall i, (i < iters self)%nat -> cost_fn (ps i) = Ok (cs i, gs i)) ->
  (forall i, (i < iters self)%nat -> length (gs i) = length (ps i)) ->
  (forall i, (i < iters self)%nat ->
             ps (S i) = zip_with Rminus (ps i) (map (Rmult (alpha self)) (gs i))) ->
  exists p costs out',
    optimize self cost_fn (ps O) out = (Ok (p, costs), out')
    /\ length costs = ((iters self + 99) / 100)%nat
    /\ length out'
       = (length out + if debug self then (iters self + 99) / 100 else 0)%nat.
Proof.
  intros Hcall Hlen Hstep.
  exists (ps (iters self)), (map cs (logged (iters self))),
         (out ++ debug_lines self cs (iters self)).
  split; [apply (optimize_ok self cost_fn ps cs gs Hcall Hlen Hstep)|].
  split; [rewrite length_map; apply length_logged|].
  rewrite length_app. unfold debug_lines.
  destruct (debug self); [rewrite length_map, length_logged|]; reflexivity.
Qed.

Lemma optimize_trace_length_witness :
  exists p costs out',
    optimize (mk_optimizer 1 true 201) (fun p => Ok (7, map (fun _ => 0) p))
             [1; 2] [] = (Ok (p, costs), out')
    /\ length costs = 3%nat /\ length out' = 3%nat.
Proof.
  apply (@optimize_trace_length (mk_optimizer 1 true 201)
           (fun p => Ok (7, map (fun _ => 0) p))
           (fun _ => [1; 2]) (fun _ => 7) (fun _ => [0; 0]) []).
  - intros i _. reflexivity.
  - intros i _. reflexivity.
  - intros i _. simpl. repeat f_equal; lra.
Defined.

(** ** Initialisation *)

(** The loop rule with a way out: every round keeps the invariant or raises
    an exception of the kind [E]. *)
Lemma for_each_inv_err {St T Acc} (Inv : nat -> Acc -> St -> Prop)
  (E : pyerr -> Prop)
  (xs : list T) (body : T -> Acc -> prog St Acc) (acc : Acc) (s : St) :
  Inv O acc s ->
  (forall k x a t, nth_error xs k = Some x -> Inv k a t ->
     (exists a' t', body x a t = (Ok a', t') /\ Inv (S k) a' t')
     \/ (exists e t', body x a t = (Err e, t') /\ E e)) ->
  (exists a' t', for_each xs body acc s = (Ok a', t') /\ Inv (length xs) a' t')
  \/ (exists e t', for_each xs body acc s = (Err e, t') /\ E e).
Proof.
  revert Inv acc s; induction xs as [|x xs IH]; intros Inv acc s H0 Hstep; simpl.
  - left. exists acc, s; split; [reflexivity | assumption].
  - destruct (Hstep O x acc s eq_refl H0)
      as [(a1 & s1 & Hb & H1) | (e & s1 & Hb & He)]; unfold bind; rewrite Hb.
    + apply (IH (fun k => Inv (S k))); [assumption|].
      intros k y a t Hk HI. apply (Hstep (S k) y a t); assumption.
    + right. exists e, s1. split; [reflexivity | assumption].
Qed.

Lemma wf_he_weights (model : NnModel) (noise : nat -> nat -> nat -> R) (l : nat) :
  wf (he_weights model noise l).
Proof. unfold he_weights, randn. auto with nn. Qed.

Lemma wf_zero_bias (model : NnModel) (l : nat) : wf (zero_bias model l).
Proof. unfold wf, zero_bias; cbn. rewrite repeat_length. lia. Qed.

Lemma init_params_body_ok (model : NnModel) (noise : nat -> nat -> nat -> R)
  (l : nat) (g : vec) :
  compiled model ->
  length g = total_len (layers model) ->
  (1 <= l < length (layers model))%nat ->
  (0 < dimn (layers model) (l - 1))%nat ->
  init_params_body model noise l tt g
  = (Ok tt, packed (layers model) l (he_weights model noise l)
                   (zero_bias model l) g).
Proof.
  intros Hc Hg Hl Hd. unfold init_params_body, bind, lift.
  rewrite (getitem_pred_nth _ no_layer) by lia.
  rewrite (getitem_nth _ no_layer) by lia.
  fold (dimn (layers model) (l - 1)) (dimn (layers model) l).
  rewrite py_fdiv_ok by exact Hd.
  fold (he_weights model noise l) (zero_bias model l).
  apply pack_params_ok; try assumption; try reflexivity.
  - apply wf_he_weights.
  - apply wf_zero_bias.
Qed.

Lemma init_params_body_zero (model : NnModel) (noise : nat -> nat -> nat -> R)
  (l : nat) (g : vec) :
  (1 <= l < length (layers model))%nat ->
  dimn (layers model) (l - 1) = 0%nat ->
  init_params_body model noise l tt g = (Err ZeroDivisionError, g).
Proof.
  intros Hl Hd. unfold init_params_body, bind, lift.
  rewrite (getitem_pred_nth _ no_layer) by lia.
  rewrite (getitem_nth _ no_layer) by lia.
  fold (dimn (layers model) (l - 1)). rewrite Hd. reflexivity.
Qed.

(** The buffer of [_init_params] after the rounds for layers [1..k]. *)
Lemma init_params_loop (model : NnModel) (noise : nat -> nat -> nat -> R) :
  compiled model ->
  (exists p,
      for_each (range 1 (length (layers model))) (init_params_body model noise)
               tt (repeat 0 (total_len (layers model))) = (Ok tt, p)
      /\ length p = total_len (layers model)
      /\ forall l, (1 <= l < length (layers model))%nat ->
           (0 < dimn (layers model) (l - 1))%nat
           /\ W_of model p l = he_weights model noise l
           /\ b_of model p l = zero_bias model l)
  \/ (exists g,
         for_each (range 1 (length (layers model))) (init_params_body model noise)
                  tt (repeat 0 (total_len (layers model)))
         = (Err ZeroDivisionError, g)
         /\ exists l, (1 <= l < length (layers model))%nat
                      /\ dimn (layers model) (l - 1) = 0%nat).
Proof.
  intros Hc.
  destruct (for_each_inv_err
              (fun k (_ : unit) g =>
                 length g = total_len (layers model)
                 /\ forall l, (1 <= l <= k)%nat ->
                      (0 < dimn (layers model) (l - 1))%nat
                      /\ W_of model g l = he_weights model noise l
                      /\ b_of model g l = zero_bias model l)
              (fun e => e = ZeroDivisionError
                        /\ exists l, (1 <= l < length (layers model))%nat
                                     /\ dimn (layers model) (l - 1) = 0%nat)
              (range 1 (length (layers model))) (init_params_body model noise)
              tt (repeat 0 (total_len (layers model))))
    as [([] & p & Hrun & Hlen & Hall) | (e & g & Hrun & -> & Hzero)].
  - split; [apply repeat_length | intros l Hl; lia].
  - intros k x [] g Hx [Hg Hdone].
    apply nth_error_range_inv in Hx; destruct Hx as [Hk ->].
    destruct (Nat.eq_dec (dimn (layers model) (1 + k - 1)) 0) as [Hz|Hz].
    + right. exists ZeroDivisionError, g.
      split; [apply init_params_body_zero; [lia | exact Hz]|].
      split; [reflexivity|]. exists (1 + k)%nat. split; [lia | exact Hz].
    + left. exists tt, (packed (layers model) (1 + k) (he_weights model noise (1 + k))
                               (zero_bias model (1 + k)) g).
      assert (Hl : (1 <= 1 + k < length (layers model))%nat) by lia.
      split; [apply init_params_body_ok; (assumption || lia)|].
      split.
      * rewrite length_packed; try assumption; try reflexivity.
        -- apply wf_he_weights.
        -- apply wf_zero_bias.
      * intros l Hlk.
        destruct (Nat.eq_dec l (1 + k)) as [->|Hne].
        -- split; [lia|]. split.
           ++ apply W_of_packed; try assumption; try reflexivity.
              ** apply wf_he_weights.
              ** apply wf_zero_bias.
           ++ apply b_of_packed; try assumption; try reflexivity.
              ** apply wf_he_weights.
              ** apply wf_zero_bias.
        -- destruct (Hdone l) as (Hd & HW & Hb); [lia|].
           destruct (@packed_other model (1 + k) (he_weights model noise (1 + k))
                       (zero_bias model (1 + k)) g Hg Hl
                       (wf_he_weights model noise (1 + k))
                       (wf_zero_bias model (1 + k))
                       eq_refl eq_refl eq_refl eq_refl l) as [EW Eb];
             [lia | exact Hne |].
           rewrite EW, Eb. repeat split; assumption.
  - left. exists p. split; [exact Hrun|]. split; [exact Hlen|].
    intros l Hl. apply Hall. rewrite length_range. lia.
  - right. exists g. split; [exact Hrun | exact Hzero].
Qed.

(** X20.  [_init_params] fills every layer: on a compiled model in which
    every layer that feeds another has nonzero width, it returns a vector of
    full length from which [unpack_params] reads, at every layer [l >= 1],
    the draw of that layer scaled by [sqrt(2 / dim[l-1])] as [W_l] and a zero
    column as [b_l]. *)
Theorem init_params_layout (model : NnModel) (noise : nat -> nat -> nat -> R) :
  let ls := layers model in
  compiled model ->
  (forall l, (1 <= l < length ls)%nat -> (0 < dimn ls (l - 1))%nat) ->
  exists p,
    _init_params model noise = Ok p
    /\ length p = total_len ls
    /\ forall l, (1 <= l < length ls)%nat ->
         unpack_params model l p
         = (Ok (mmap (fun x => x * sqrt (2 / INR (dimn ls (l - 1))))
                     (randn noise l (dimn ls l) (dimn ls (l - 1))),
                mk_nd (dimn ls l) 1 (repeat 0 (dimn ls l))),
            p).
Proof.
  intros ls Hc Hpos. subst ls.
  destruct (init_params_loop noise Hc)
    as [(p & Hrun & Hlen & Hall) | (g & _ & l & Hl & Hz)].
  - exists p. split; [|split; [exact Hlen|]].
    + unfold _init_params. rewrite param_len_ok. cbn [rbind].
      unfold on_buffer. rewrite Hrun. reflexivity.
    + intros l Hl. rewrite unpack_params_ok by assumption.
      destruct (Hall l Hl) as (_ & -> & ->). reflexivity.
  - specialize (Hpos l Hl). lia.
Qed.

Lemma init_params_layout_witness :
  exists p W b,
    _init_params small_net (fun l i j => INR (l + i + j)) = Ok p
    /\ length p = 9%nat
    /\ unpack_params small_net 2 p = (Ok (W, b), p)
    /\ data b = [0].
Proof.
  destruct (@init_params_layout small_net (fun l i j => INR (l + i + j)))
    as (p & H1 & H2 & H3).
  - reflexivity.
  - intros l Hl. simpl in Hl.
    assert (E : l = 1%nat \/ l = 2%nat) by lia.
    destruct E as [-> | ->]; vm_compute; lia.
  - eexists p, _, _. split; [exact H1|]. split; [exact H2|].
    split; [apply (H3 2%nat); simpl; lia | reflexivity].
Defined.

(** X21.  A layer of width 0 that feeds another makes initialisation
    impossible: on a compiled model with such a layer, [_init_params] raises
    [ZeroDivisionError], from [2. / prev_layer_dim]. *)
Theorem init_params_zero_width (model : NnModel)
  (noise : nat -> nat -> nat -> R) (l : nat) :
  compiled model ->
  (1 <= l < length (layers model))%nat ->
  dimn (layers model) (l - 1) = 0%nat ->
  _init_params model noise = Err ZeroDivisionError.
Proof.
  intros Hc Hl Hz.
  destruct (init_params_loop noise Hc)
    as [(p & _ & _ & Hall) | (g & Hrun & _)].
  - destruct (Hall l Hl) as (Hpos & _). lia.
  - unfold _init_params. rewrite param_len_ok. cbn [rbind].
    unfold on_buffer. rewrite Hrun. reflexivity.
Qed.

Lemma init_params_zero_width_witness :
  _init_params (snd (compile (snd (add 1 "sigmoid" 0
                                       (snd (add 0 "relu" 3 new_model))))))
               (fun _ _ _ => 0)
  = Err ZeroDivisionError.
Proof.
  apply (@init_params_zero_width _ (fun _ _ _ => 0) 2).
  - reflexivity.
  - simpl; lia.
  - reflexivity.
Defined.

(** ** Training *)

Section Train.

Variable model : NnModel.
Variable lambd : R.
Variable a : R.
Variables X Y : ndarray.

Hypothesis Hc : compiled model.
Hypothesis HL : (1 <= length (layers model))%nat.
Hypothesis HX : nrows X = dimn (layers model) 0.
Hypothesis Hact : forall l, (1 <= l < length (layers model))%nat ->
                            activation (nth l (layers model) no_layer) <> None.
Hypothesis HY1 : nrows Y = 1%nat.
Hypothesis HY2 : ncols Y = ncols X.
Hypothesis Hm : (0 < ncols X)%nat.

Lemma cost_at (p : vec) :
  length p = total_len (layers model) ->
  fst (_cost model lambd X Y p)
  = Ok (cost_value model lambd p X Y, grad_of model lambd X Y p)
  /\ length (grad_of model lambd X Y p) = length p.
Proof using Hc HL HX Hact HY1 HY2 Hm.
  intros Hp.
  destruct (@cost_ok model lambd p X Y Hc Hp HL HX Hact HY1 HY2 Hm)
    as (grad & Hrun & Hlen & _).
  unfold grad_of. rewrite Hrun. cbn [fst]. split; [reflexivity | exact Hlen].
Qed.

Lemma length_descent_params (p0 : vec) (i : nat) :
  length p0 = total_len (layers model) ->
  length (descent_params model lambd a X Y p0 i) = total_len (layers model).
Proof using Hc HL HX Hact HY1 HY2 Hm.
  intros Hp. induction i as [|i IH]; [exact Hp|].
  cbn [descent_params]. unfold descent_step.
  destruct (@cost_at _ IH) as [_ Hg].
  rewrite length_zip_with by (rewrite length_map; symmetry; exact Hg).
  exact IH.
Qed.

Lemma optimize_cost_ok (opt : GradDescentOptimizer) (p0 : vec) (out : stdout) :
  alpha opt = a ->
  length p0 = total_len (layers model) ->
  optimize opt (fun p => fst (_cost model lambd X Y p)) p0 out
  = (Ok (descent_params model lambd a X Y p0 (iters opt),
         map (fun i => cost_value model lambd
                         (descent_params model lambd a X Y p0 i) X Y)
             (logged (iters opt))),
     out ++ debug_lines opt
              (fun i => cost_value model lambd
                          (descent_params model lambd a X Y p0 i) X Y)
              (iters opt)).
Proof using Hc HL HX Hact HY1 HY2 Hm.
  intros Ha Hp.
  apply (@optimize_ok opt (fun p => fst (_cost model lambd X Y p))
           (descent_params model lambd a X Y p0)
           (fun i => cost_value model lambd
                       (descent_params model lambd a X Y p0 i) X Y)
           (fun i => grad_of model lambd X Y
                       (descent_params model lambd a X Y p0 i))).
  - intros i _. apply cost_at. apply length_descent_params. exact Hp.
  - intros i _. apply cost_at. apply length_descent_params. exact Hp.
  - intros i _. rewrite Ha. reflexivity.
Qed.

End Train.

Lemma init_params_ok (model : NnModel) (noise : nat -> nat -> nat -> R) :
  compiled model ->
  (forall l, (1 <= l < length (layers model))%nat ->
             (0 < dimn (layers model) (l - 1))%nat) ->
  exists guess, _init_params model noise = Ok guess
                /\ length guess = total_len (layers model).
Proof.
  intros Hc Hpos.
  destruct (init_params_loop noise Hc)
    as [(p & Hrun & Hlen & _) | (g & _ & l & Hl & Hz)].
  - exists p. split; [|exact Hlen].
    unfold _init_params. rewrite param_len_ok. cbn [rbind].
    unfold on_buffer. rewrite Hrun. reflexivity.
  - specialize (Hpos l Hl). lia.
Qed.

Lemma train_run (noise : nat -> nat -> nat -> R) (X Y : ndarray)
  (self : NnClassifier) (out : stdout) :
  compiled (clf_model self) ->
  (1 <= length (layers (clf_model self)))%nat ->
  (forall l, (1 <= l < length (layers (clf_model self)))%nat ->
             (0 < dimn (layers (clf_model self)) (l - 1))%nat) ->
  nrows X = dimn (layers (clf_model self)) 0 ->
  (forall l, (1 <= l < length (layers (clf_model self)))%nat ->
             activation (nth l (layers (clf_model self)) no_layer) <> None) ->
  nrows Y = 1%nat -> ncols Y = ncols X -> (0 < ncols X)%nat ->
  exists guess,
    _init_params (clf_model self) noise = Ok guess
    /\ length guess = total_len (layers (clf_model self))
    /\ let ps := descent_params (clf_model self) (clf_lambd self)
                                (alpha (clf_optimizer self)) X Y guess in
       let cs := fun i => cost_value (clf_model self) (clf_lambd self) (ps i) X Y in
       train noise X Y (self, out)
       = (Ok (map cs (logged (iters (clf_optimizer self)))),
          (mk_classifier (clf_model self) (clf_optimizer self)
                         (Some (ps (iters (clf_optimizer self))))
                         (clf_lambd self),
           out ++ debug_lines (clf_optimizer self) cs
                              (iters (clf_optimizer self)))).
Proof.
  intros Hc HL Hpos HX Hact HY1 HY2 Hm.
  destruct (@init_params_ok (clf_model self) noise Hc Hpos)
    as (guess & Hinit & Hlen).
  pose proof (@optimize_cost_ok (clf_model self) (clf_lambd self)
                (alpha (clf_optimizer self)) X Y
                Hc HL HX Hact HY1 HY2 Hm (clf_optimizer self) guess out
                eq_refl Hlen) as Hopt.
  exists guess. split; [exact Hinit|]. split; [exact Hlen|].
  intros ps cs. unfold train. rewrite Hinit, Hopt. reflexivity.
Qed.

(** X22.  [train] goes through: on a compiled model in which every layer
    that feeds another has nonzero width, with [X] of shape [(dim[0], m)],
    [Y] of shape [(1, m)] and [m > 0], it raises nothing, returns
    [⌈iters / 100⌉] costs, the first of which (when there is one) is the cost
    at the initial parameters, leaves model, optimizer and [λ] as they were,
    and stores parameters of full length: the initial ones after [iters]
    descent steps. *)
Theorem train_succeeds (noise : nat -> nat -> nat -> R) (X Y : ndarray)
  (self : NnClassifier) (out : stdout) :
  let model := clf_model self in
  let opt := clf_optimizer self in
  compiled model ->
  (1 <= length (layers model))%nat ->
  (forall l, (1 <= l < length (layers model))%nat ->
             (0 < dimn (layers model) (l - 1))%nat) ->
  nrows X = dimn (layers model) 0 ->
  (forall l, (1 <= l < length (layers model))%nat ->
             activation (nth l (layers model) no_layer) <> None) ->
  nrows Y = 1%nat -> ncols Y = ncols X -> (0 < ncols X)%nat ->
  exists guess costs p out',
    _init_params model noise = Ok guess
    /\ train noise X Y (self, out)
       = (Ok costs, (mk_classifier model opt (Some p) (clf_lambd self), out'))
    /\ length costs = ((iters opt + 99) / 100)%nat
    /\ (iters opt <> 0%nat ->
        exists g0, fst (_cost model (clf_lambd self) X Y guess)
                   = Ok (hd 0 costs, g0))
    /\ p = descent_params model (clf_lambd self) (alpha opt) X Y guess (iters opt)
    /\ length p = total_len (layers model).
Proof.
  intros model opt Hc HL Hpos HX Hact HY1 HY2 Hm.
  destruct (@train_run noise X Y self out Hc HL Hpos HX Hact HY1 HY2 Hm)
    as (guess & Hinit & Hlen & Hrun).
  cbv zeta in Hrun. fold model opt in Hrun, Hinit, Hlen.
  eexists guess, _, _, _. split; [exact Hinit|]. split; [exact Hrun|].
  split; [rewrite length_map; apply length_logged|]. split; [|split].
  - intros Hn. destruct (iters opt) as [|n] eqn:En; [contradiction|].
    unfold logged. cbn [seq filter].
    change (0 mod 100 =? 0)%nat with true. cbn [map hd descent_params].
    destruct (@cost_at model (clf_lambd self) X Y Hc HL HX Hact HY1 HY2 Hm
                guess Hlen) as [E _].
    eexists. exact E.
  - reflexivity.
  - apply length_descent_params; assumption.
Qed.

Lemma train_succeeds_witness :
  exists costs p out',
    train (fun _ _ _ => 1) tiny_X tiny_Y (tiny_classifier, [])
    = (Ok costs,
       (mk_classifier tiny_model (mk_optimizer (1 / 10) false 3) (Some p) 0, out'))
    /\ length costs = 1%nat /\ length p = 3%nat.
Proof.
  destruct (@train_succeeds (fun _ _ _ => 1) tiny_X tiny_Y tiny_classifier [])
    as (guess & costs & p & out' & _ & H2 & H3 & _ & _ & H6).
  - reflexivity.
  - simpl; lia.
  - intros l Hl. simpl in Hl. assert (l = 1%nat) by lia. subst l.
    vm_compute. lia.
  - reflexivity.
  - exact tiny_activations.
  - reflexivity.
  - reflexivity.
  - simpl; lia.
  - exists costs, p, out'. split; [exact H2|]. split; [exact H3 | exact H6].
Defined.

(** X23.  After [train], [predict] works: under the conditions under which
    [train] goes through and with a one-unit top layer, [predict] on the
    trained classifier returns a [(1, m')] boolean array for every input of
    [dim[0]] rows and [m'] columns. *)
Theorem predict_after_train (noise : nat -> nat -> nat -> R) (X Y X' : ndarray)
  (self : NnClassifier) (out : stdout) :
  let model := clf_model self in
  compiled model ->
  (1 <= length (layers model))%nat ->
  (forall l, (1 <= l < length (layers model))%nat ->
             (0 < dimn (layers model) (l - 1))%nat) ->
  nrows X = dimn (layers model) 0 ->
  (forall l, (1 <= l < length (layers model))%nat ->
             activation (nth l (layers model) no_layer) <> None) ->
  nrows Y = 1%nat -> ncols Y = ncols X -> (0 < ncols X)%nat ->
  dimn (layers model) (length (layers model) - 1) = 1%nat ->
  nrows X' = dimn (layers model) 0 ->
  exists costs self' out' P,
    train noise X Y (self, out) = (Ok costs, (self', out'))
    /\ clf_model self' = model
    /\ predict (clf_model self') (clf_params self') X' = Ok P
    /\ brows P = 1%nat /\ bcols P = ncols X'.
Proof.
  intros model Hc HL Hpos HX Hact HY1 HY2 Hm Htop HX'.
  destruct (@train_run noise X Y self out Hc HL Hpos HX Hact HY1 HY2 Hm)
    as (guess & _ & Hlen & Hrun).
  cbv zeta in Hrun.
  eexists _, _, _, _. split; [exact Hrun|]. cbn [clf_model clf_params].
  split; [reflexivity|].
  rewrite predict_ok; try assumption.
  - cbn [brows bcols]. repeat split.
  - apply length_descent_params; assumption.
Qed.

Lemma predict_after_train_witness :
  exists costs self' out' P,
    train (fun _ _ _ => 1) tiny_X tiny_Y (tiny_classifier, [])
    = (Ok costs, (self', out'))
    /\ predict (clf_model self') (clf_params self') (mk_nd 2 3 [0; 1; 0; 1; 1; 0])
       = Ok P
    /\ brows P = 1%nat /\ bcols P = 3%nat.
Proof.
  destruct (@predict_after_train (fun _ _ _ => 1) tiny_X tiny_Y
              (mk_nd 2 3 [0; 1; 0; 1; 1; 0]) tiny_classifier [])
    as (costs & self' & out' & P & H1 & _ & H3 & H4 & H5).
  - reflexivity.
  - simpl; lia.
  - intros l Hl. simpl in Hl. assert (l = 1%nat) by lia. subst l.
    vm_compute. lia.
  - reflexivity.
  - exact tiny_activations.
  - reflexivity.
  - reflexivity.
  - simpl; lia.
  - reflexivity.
  - reflexivity.
  - exists costs, self', out', P. repeat split; assumption.
Defined.

(** ** The gradient and [λ] *)

(** X24.  Regularisation does not reach the biases: under the shape
    contract and [m > 0], the gradients that [_cost] returns for two values of
    [λ] have the same bias block at every layer. *)
Theorem bias_gradient_ignores_lambda (model : NnModel) (lambd1 lambd2 : R)
  (params : vec) (X Y : ndarray) :
  let ls := layers model in
  compiled model ->
  length params = total_len ls ->
  (1 <= length ls)%nat ->
  nrows X = dimn ls 0 ->
  (forall l, (1 <= l < length ls)%nat -> activation (nth l ls no_layer) <> None) ->
  nrows Y = 1%nat -> ncols Y = ncols X -> (0 < ncols X)%nat ->
  exists c1 g1 c2 g2,
    _cost model lambd1 X Y params = (Ok (c1, g1), params)
    /\ _cost model lambd2 X Y params = (Ok (c2, g2), params)
    /\ forall l, (1 <= l < length ls)%nat ->
         exists W1 W2 b,
           unpack_params model l g1 = (Ok (W1, b), g1)
           /\ unpack_params model l g2 = (Ok (W2, b), g2).
Proof.
  intros ls Hc Hp HL HX Hact HY1 HY2 Hm. subst ls.
  destruct (@cost_ok model lambd1 params X Y Hc Hp HL HX Hact HY1 HY2 Hm)
    as (g1 & H1 & L1 & B1).
  destruct (@cost_ok model lambd2 params X Y Hc Hp HL HX Hact HY1 HY2 Hm)
    as (g2 & H2 & L2 & B2).
  eexists _, g1, _, g2. split; [exact H1|]. split; [exact H2|].
  intros l Hl.
  assert (Hl' : (1 <= l <= top model)%nat) by (unfold top; lia).
  destruct (B1 l Hl') as [_ E1]. destruct (B2 l Hl') as [_ E2].
  exists (W_of model g1 l), (W_of model g2 l), (db_at model params X Y l).
  split.
  - rewrite unpack_params_ok by (try assumption; congruence).
    rewrite E1. reflexivity.
  - rewrite unpack_params_ok by (try assumption; congruence).
    rewrite E2. reflexivity.
Qed.

Lemma bias_gradient_ignores_lambda_witness :
  exists g1 g2 W1 W2 b,
    snd (match fst (_cost tiny_model 0 tiny_X tiny_Y tiny_params) with
         | Ok cg => cg | Err _ => (0, []) end) = g1
    /\ snd (match fst (_cost tiny_model 1 tiny_X tiny_Y tiny_params) with
            | Ok cg => cg | Err _ => (0, []) end) = g2
    /\ unpack_params tiny_model 1 g1 = (Ok (W1, b), g1)
    /\ unpack_params tiny_model 1 g2 = (Ok (W2, b), g2).
Proof.
  destruct (@bias_gradient_ignores_lambda tiny_model 0 1 tiny_params tiny_X tiny_Y)
    as (c1 & g1 & c2 & g2 & H1 & H2 & H3).
  - reflexivity.
  - reflexivity.
  - simpl; lia.
  - reflexivity.
  - exact tiny_activations.
  - reflexivity.
  - reflexivity.
  - simpl; lia.
  - destruct (H3 1%nat) as (W1 & W2 & b & E1 & E2); [simpl; lia|].
    exists g1, g2, W1, W2, b. rewrite H1, H2. cbn [fst snd].
    repeat split; assumption.
Defined.
